(** * Steammarketplace2: the server liveness check

    A shallow embedding of [check_server_status]
    (archive/my-agent-project/src/tools/steam_tools.py) and the properties
    of the status report it builds.

    The function allocates two dictionaries, walks the hardcoded [servers]
    dictionary in insertion order and, for each entry, opens a TCP
    connection with a one second timeout inside a [try]/[with] pair.  The
    embedding keeps that shape: a heap of dictionary objects, a trace of
    socket events, a state-and-exception monad, and combinators for
    [try ... except], [with ... :] and [for ... in]. *)

From Stdlib Require Import ZArith List String Ascii Bool Lia.
From stdpp Require Import base gmap strings list pretty.

Import ListNotations.
Local Open Scope string_scope.
Local Open Scope list_scope.
Local Open Scope Z_scope.

(* ================================================================== *)
(** ** Exception classes *)
(* ================================================================== *)

(** The part of Python's exception hierarchy that a call to
    [socket.create_connection] can meet.  [socket_timeout] is
    [socket.timeout]: a direct subclass of [OSError] (an alias of
    [TimeoutError] from Python 3.10 on, itself a direct subclass of
    [OSError]); [gaierror] and [herror] are the resolver errors of the
    [socket] module. *)
Module Exn.

Inductive class : Type :=
| BaseException
| KeyboardInterrupt
| Exception
| MemoryError
| TypeError
| ArithmeticError
| OverflowError
| OSError
| socket_timeout
| TimeoutError
| gaierror
| herror
| ConnectionError
| ConnectionRefusedError
| ConnectionResetError.

Definition class_eqb (c d : class) : bool :=
  match c, d with
  | BaseException, BaseException
  | KeyboardInterrupt, KeyboardInterrupt
  | Exception, Exception
  | MemoryError, MemoryError
  | TypeError, TypeError
  | ArithmeticError, ArithmeticError
  | OverflowError, OverflowError
  | OSError, OSError
  | socket_timeout, socket_timeout
  | TimeoutError, TimeoutError
  | gaierror, gaierror
  | herror, herror
  | ConnectionError, ConnectionError
  | ConnectionRefusedError, ConnectionRefusedError
  | ConnectionResetError, ConnectionResetError => true
  | _, _ => false
  end.

(** The direct base class ([__base__]); [BaseException] is the root. *)
Definition base (c : class) : option class :=
  match c with
  | BaseException => None
  | KeyboardInterrupt => Some BaseException
  | Exception => Some BaseException
  | MemoryError => Some Exception
  | TypeError => Some Exception
  | ArithmeticError => Some Exception
  | OverflowError => Some ArithmeticError
  | OSError => Some Exception
  | socket_timeout => Some OSError
  | TimeoutError => Some OSError
  | gaierror => Some OSError
  | herror => Some OSError
  | ConnectionError => Some OSError
  | ConnectionRefusedError => Some ConnectionError
  | ConnectionResetError => Some ConnectionError
  end.

(** [c] followed by its ancestors, walking [base] at most [fuel] times. *)
Fixpoint mro_upto (fuel : nat) (c : class) : list class :=
  c :: match fuel with
       | O => []
       | S fuel' => match base c with
                    | None => []
                    | Some b => mro_upto fuel' b
                    end
       end.

(** No chain of bases is longer than four steps. *)
Definition mro (c : class) : list class := mro_upto 4 c.

Definition issubclass (c d : class) : bool :=
  existsb (class_eqb d) (mro c).

(** [except (c1, ..., cn)]: the clause matches a raised exception when
    its class is a subclass of one of the listed classes. *)
Definition matches (clause : list class) (e : class) : bool :=
  existsb (issubclass e) clause.

End Exn.

(* ================================================================== *)
(** ** Dictionaries *)
(* ================================================================== *)

(** A Python [dict] with string keys: an association list in insertion
    order, without duplicate keys. *)
Definition dict (V : Type) : Type := list (string * V).

Definition dict_keys {V} (d : dict V) : list string := map fst d.

Definition dict_values {V} (d : dict V) : list V := map snd d.

Fixpoint dict_get {V} (d : dict V) (k : string) : option V :=
  match d with
  | [] => None
  | (k', v) :: d' => if String.eqb k' k then Some v else dict_get d' k
  end.

(** [d[k] = v]: an existing key keeps its place and takes the new value,
    a new key is appended. *)
Fixpoint dict_set {V} (d : dict V) (k : string) (v : V) : dict V :=
  match d with
  | [] => [(k, v)]
  | (k', v') :: d' =>
      if String.eqb k' k then (k', v) :: d' else (k', v') :: dict_set d' k v
  end.

(* ================================================================== *)
(** ** The world: heap objects, socket events, the network *)
(* ================================================================== *)

Definition loc : Type := positive.

(** An address as [create_connection] takes it: the pair [(host, port)]. *)
Definition address : Type := string * Z.

(** The two kinds of object the function allocates: a dictionary from a
    name to an address ([servers]) and a dictionary from a name to a
    string ([status]). *)
Inductive obj : Type :=
| OServers (d : dict address)
| OStatus (d : dict string).

(** What one call of [socket.create_connection (host, port) timeout] does:
    it returns a connected socket, or raises.  A connected socket is
    closed when the [with] block is left, and that [close()] can raise
    too: [closing] is the exception it raises, if any. *)
Inductive outcome : Type :=
| Connected (closing : option Exn.class)
| Raises (e : Exn.class).

(** The network as the function meets it: the outcome of a connection
    attempt to an address under a timeout (in seconds). *)
Definition network : Type := address -> Z -> outcome.

Inductive event : Type :=
| EvConnect (a : address) (timeout : Z)
| EvConnected (a : address)
| EvFailed (a : address) (e : Exn.class)
| EvClose (a : address).

Record world : Type := World {
  heap : gmap loc obj;
  trace : list event
}.

(* ================================================================== *)
(** ** State and exceptions *)
(* ================================================================== *)

Inductive result (A : Type) : Type :=
| Returned (a : A)
| Raised (e : Exn.class).

Arguments Returned {A} a.
Arguments Raised {A} e.

Definition M (A : Type) : Type := world -> result A * world.

Definition ret {A} (a : A) : M A := fun w => (Returned a, w).

Definition raise {A} (e : Exn.class) : M A := fun w => (Raised e, w).

Definition bind {A B} (m : M A) (k : A -> M B) : M B :=
  fun w =>
    match m w with
    | (Returned a, w') => k a w'
    | (Raised e, w') => (Raised e, w')
    end.

Declare Scope py_scope.
Delimit Scope py_scope with py.
Notation "'let*' x ':=' m 'in' k" := (bind m (fun x => k))
  (at level 10, x pattern, m at level 100, k at level 200) : py_scope.
Notation "m1 '>>' m2" := (bind m1 (fun _ => m2))
  (at level 100, m2 at level 200, right associativity) : py_scope.
Local Open Scope py_scope.

(** [try: body / except clause: handler]. *)
Definition try_except {A} (body : M A) (clause : list Exn.class)
    (handler : M A) : M A :=
  fun w =>
    match body w with
    | (Returned a, w') => (Returned a, w')
    | (Raised e, w') =>
        if Exn.matches clause e then handler w' else (Raised e, w')
    end.

(** [for x in xs: body x]. *)
Fixpoint for_each {A} (xs : list A) (body : A -> M unit) : M unit :=
  match xs with
  | [] => ret tt
  | x :: xs' => body x >> for_each xs' body
  end.

Definition emit (ev : event) : M unit :=
  fun w => (Returned tt, World (heap w) (trace w ++ [ev])).

(** Allocation of a new object at an address no live object has. *)
Definition alloc (o : obj) : M loc :=
  fun w =>
    let l := fresh (dom (heap w)) in
    (Returned l, World (<[l := o]> (heap w)) (trace w)).

(** [servers.items()]; the loop never writes to [servers], so the view
    it iterates is the list of entries at the time of the call. *)
Definition items (l : loc) : M (list (string * address)) :=
  fun w =>
    match heap w !! l with
    | Some (OServers d) => (Returned d, w)
    | _ => (Raised Exn.TypeError, w)
    end.

(** [status[name] = v] on the dictionary object at [l]. *)
Definition setitem (l : loc) (k : string) (v : string) : M unit :=
  fun w =>
    match heap w !! l with
    | Some (OStatus d) =>
        (Returned tt, World (<[l := OStatus (dict_set d k v)]> (heap w)) (trace w))
    | _ => (Raised Exn.TypeError, w)
    end.

(* ================================================================== *)
(** ** Sockets *)
(* ================================================================== *)

(** A connected socket: the address it is connected to, and what its
    [close()] will raise. *)
Record socket : Type := Socket {
  peer : address;
  close_raises : option Exn.class
}.

(** [socket.create_connection(a, timeout=t)]. *)
Definition create_connection (net : network) (a : address) (t : Z) : M socket :=
  emit (EvConnect a t) >>
  match net a t with
  | Connected closing => emit (EvConnected a) >> ret (Socket a closing)
  | Raises e => emit (EvFailed a e) >> raise e
  end.

(** [sock.close()], as the socket's [__exit__] calls it: the socket is
    closed, and the error of the close, if there is one, is raised. *)
Definition close (s : socket) : M unit :=
  emit (EvClose (peer s)) >>
  match close_raises s with
  | None => ret tt
  | Some e => raise e
  end.

(** [with acquire: body]: the socket is closed when the body is left,
    whether it returned or raised; an exception of the close leaves the
    [with] statement in either case. *)
Definition with_socket {A} (acquire : M socket) (body : M A) : M A :=
  let* s := acquire in
  fun w =>
    match body w with
    | (Returned a, w') => (close s >> ret a) w'
    | (Raised e, w') => (close s >> raise e) w'
    end.

(* ================================================================== *)
(** ** check_server_status *)
(* ================================================================== *)

(** The dictionary literal bound to [servers]. *)
Definition servers : dict address :=
  [ ("frontend", ("localhost", 3002));
    ("backend",  ("localhost", 3001));
    ("redis",    ("localhost", 6379)) ].

(** [except (socket.timeout, ConnectionRefusedError, OSError)]. *)
Definition except_clause : list Exn.class :=
  [Exn.socket_timeout; Exn.ConnectionRefusedError; Exn.OSError].

(** The body of the [for] loop for one entry [name, (host, port)]. *)
Definition probe (net : network) (status : loc)
    (entry : string * address) : M unit :=
  let '(name, (host, port)) := entry in
  try_except
    (with_socket (create_connection net (host, port) 1)
                 (setitem status name "UP"))
    except_clause
    (setitem status name "DOWN").

(** The function; it returns the reference to the [status] dictionary. *)
Definition check_server_status (net : network) : M loc :=
  let* servers_ref := alloc (OServers servers) in
  let* status := alloc (OStatus []) in
  let* entries := items servers_ref in
  for_each entries (probe net status) >>
  ret status.

(* ================================================================== *)
(** ** What a run leaves behind *)
(* ================================================================== *)

(** The dictionary a run returned, read from the final heap. *)
Definition report_of (r : result loc * world) : option (dict string) :=
  match r with
  | (Returned l, w) =>
      match heap w !! l with
      | Some (OStatus d) => Some d
      | _ => None
      end
  | (Raised _, _) => None
  end.

(** The socket events a run added to the trace [before]. *)
Definition events_since (before : list event) (r : result loc * world)
  : list event :=
  drop (length before) (trace (snd r)).

(** Transport-level failures are the operating system's errors: the
    subclasses of [OSError]. *)
Definition transport_level (e : Exn.class) : bool :=
  Exn.issubclass e Exn.OSError.

(** A probe outcome that says whether the target is up or down: what
    the attempt or the close raises, if anything, is a transport-level
    failure. *)
Definition up_or_down (o : outcome) : Prop :=
  match o with
  | Connected None => True
  | Connected (Some e) => transport_level e = true
  | Raises e => transport_level e = true
  end.

(** Every probe of one of [entries] ends in a status: its attempt
    connects or fails at transport level, and the close of a connection
    fails, if it does, at transport level too. *)
Definition answers (net : network) (entries : list (string * address)) : Prop :=
  Forall (fun entry : string * address => up_or_down (net (snd entry) 1)) entries.

(** The same of every probe [check_server_status] makes. *)
Definition transport_only (net : network) : Prop := answers net servers.

(** The loop as a function on the [status] dictionary: the dictionary
    after the loop, the events of the loop, and the exception that left
    it, if one did. *)
Fixpoint probe_all (net : network) (entries : list (string * address))
    (d : dict string) : dict string * list event * option Exn.class :=
  match entries with
  | [] => (d, [], None)
  | (name, a) :: rest =>
      match net a 1 with
      | Connected None =>
          let '(d', evs, exn) := probe_all net rest (dict_set d name "UP") in
          (d', EvConnect a 1 :: EvConnected a :: EvClose a :: evs, exn)
      | Connected (Some e) =>
          if Exn.matches except_clause e then
            let '(d', evs, exn) :=
              probe_all net rest (dict_set (dict_set d name "UP") name "DOWN") in
            (d', EvConnect a 1 :: EvConnected a :: EvClose a :: evs, exn)
          else
            (dict_set d name "UP",
             [EvConnect a 1; EvConnected a; EvClose a], Some e)
      | Raises e =>
          if Exn.matches except_clause e then
            let '(d', evs, exn) := probe_all net rest (dict_set d name "DOWN") in
            (d', EvConnect a 1 :: EvFailed a e :: evs, exn)
          else (d, [EvConnect a 1; EvFailed a e], Some e)
      end
  end.

(** The status string of an outcome: "UP" for a connection that is
    also closed without an error. *)
Definition verdict (o : outcome) : string :=
  match o with
  | Connected None => "UP"
  | Connected (Some _) => "DOWN"
  | Raises _ => "DOWN"
  end.

(** The events of one probe. *)
Definition probe_events (net : network) (entry : string * address)
  : list event :=
  let a := snd entry in
  match net a 1 with
  | Connected _ => [EvConnect a 1; EvConnected a; EvClose a]
  | Raises e => [EvConnect a 1; EvFailed a e]
  end.

(** The report when no exception leaves the loop. *)
Definition record (net : network) (d : dict string)
    (entry : string * address) : dict string :=
  dict_set d (fst entry) (verdict (net (snd entry) 1)).

Definition report (net : network) : dict string :=
  fold_left (record net) servers [].

(** How the loop is left: normally, or by the exception it let through. *)
Definition outcome_result (exn : option Exn.class) : result unit :=
  match exn with
  | None => Returned tt
  | Some e => Raised e
  end.

(** Where the two dictionaries of a call are allocated. *)
Definition servers_loc (w : world) : loc := fresh (dom (heap w)).

Definition status_loc (w : world) : loc :=
  fresh (dom (<[servers_loc w := OServers servers]> (heap w))).

(** The heap a call leaves: the caller's heap with the two new objects. *)
Definition heap_after (w : world) (d : dict string) : gmap loc obj :=
  <[status_loc w := OStatus d]> (<[servers_loc w := OServers servers]> (heap w)).

(** The connection attempts among the events, each with its timeout. *)
Definition attempts (evs : list event) : list (address * Z) :=
  flat_map (fun ev => match ev with
                      | EvConnect a t => [(a, t)]
                      | _ => []
                      end) evs.

(* ================================================================== *)
(** ** Calling the function *)
(* ================================================================== *)

(** Values a caller can pass as arguments. *)
Inductive value : Type :=
| VNum (z : Z)
| VStr (s : string)
| VTargets (ts : list (string * address)).

(** [def check_server_status() -> Dict[str, str]]: the signature has no
    parameter, so a call that passes a positional or a keyword argument
    raises [TypeError] before the body runs. *)
Definition call_check_server_status (args : list value)
    (kwargs : list (string * value)) (net : network) : M loc :=
  match args, kwargs with
  | [], [] => check_server_status net
  | _, _ => raise Exn.TypeError
  end.

(* ================================================================== *)
(** ** One call, statement by statement *)
(* ================================================================== *)

(** Where a call stands: before [servers = {...}], before [status = {}],
    before the [for] header reads [servers.items()], inside the loop with
    the entries still to probe, or finished. *)
Inductive call_state : Type :=
| AtEntry
| AtStatus (servers_ref : loc)
| AtFor (servers_ref status : loc)
| InLoop (status : loc) (pending : list (string * address))
| Finished (r : result loc).

(** One statement of the call (one whole iteration inside the loop). *)
Definition step (net : network) (c : call_state) (w : world)
  : call_state * world :=
  match c with
  | AtEntry =>
      match alloc (OServers servers) w with
      | (Returned l, w') => (AtStatus l, w')
      | (Raised e, w') => (Finished (Raised e), w')
      end
  | AtStatus servers_ref =>
      match alloc (OStatus []) w with
      | (Returned l, w') => (AtFor servers_ref l, w')
      | (Raised e, w') => (Finished (Raised e), w')
      end
  | AtFor servers_ref status =>
      match items servers_ref w with
      | (Returned entries, w') => (InLoop status entries, w')
      | (Raised e, w') => (Finished (Raised e), w')
      end
  | InLoop status [] => (Finished (Returned status), w)
  | InLoop status (entry :: rest) =>
      match probe net status entry w with
      | (Returned _, w') => (InLoop status rest, w')
      | (Raised e, w') => (Finished (Raised e), w')
      end
  | Finished r => (Finished r, w)
  end.

Fixpoint steps (net : network) (n : nat) (c : call_state) (w : world)
  : call_state * world :=
  match n with
  | O => (c, w)
  | S n' => let '(c', w') := step net c w in steps net n' c' w'
  end.

(** Two calls in one interpreter, each meeting its own network; the
    schedule says which of the two runs its next statement. *)
Fixpoint interleave (net1 net2 : network) (sched : list bool)
    (c1 c2 : call_state) (w : world) : call_state * call_state * world :=
  match sched with
  | [] => (c1, c2, w)
  | true :: sched' =>
      let '(c1', w') := step net1 c1 w in interleave net1 net2 sched' c1' c2 w'
  | false :: sched' =>
      let '(c2', w') := step net2 c2 w in interleave net1 net2 sched' c1 c2' w'
  end.

(** The statements a call still has to run. *)
Definition remaining (c : call_state) : nat :=
  match c with
  | AtEntry => 4 + length servers
  | AtStatus _ => 3 + length servers
  | AtFor _ _ => 2 + length servers
  | InLoop _ pending => 1 + length pending
  | Finished _ => 0
  end.

(** The objects a call holds a reference to. *)
Definition owned (c : call_state) : list loc :=
  match c with
  | AtEntry => []
  | AtStatus servers_ref => [servers_ref]
  | AtFor servers_ref status => [servers_ref; status]
  | InLoop status _ => [status]
  | Finished (Returned status) => [status]
  | Finished (Raised _) => []
  end.

(** What holds of a call's own objects while it runs on [net]. *)
Definition call_inv (net : network) (c : call_state) (h : gmap loc obj) : Prop :=
  match c with
  | AtEntry => True
  | AtStatus servers_ref => h !! servers_ref = Some (OServers servers)
  | AtFor servers_ref status =>
      servers_ref <> status /\
      h !! servers_ref = Some (OServers servers) /\
      h !! status = Some (OStatus [])
  | InLoop status pending =>
      exists probed,
        servers = probed ++ pending /\
        h !! status = Some (OStatus (fold_left (record net) probed []))
  | Finished (Returned status) => h !! status = Some (OStatus (report net))
  | Finished (Raised _) => False
  end.

(** The number of turns a schedule gives to the first ([true]) or to the
    second ([false]) call. *)
Definition turns (b : bool) (sched : list bool) : nat :=
  length (List.filter (fun x => Bool.eqb x b) sched).

(** What holds of two calls that share the heap [h], started from the
    heap [h0]: each keeps its own invariant, they hold no object in
    common, and the objects of [h0] are as they were and are held by
    neither. *)
Definition pair_inv (net1 net2 : network) (h0 : gmap loc obj)
    (c1 c2 : call_state) (h : gmap loc obj) : Prop :=
  call_inv net1 c1 h /\
  call_inv net2 c2 h /\
  (forall l, List.In l (owned c1) -> ~ List.In l (owned c2)) /\
  (forall l o, h0 !! l = Some o ->
     h !! l = Some o /\ ~ List.In l (owned c1) /\ ~ List.In l (owned c2)).

(* ================================================================== *)
(** ** Some networks and worlds *)
(* ================================================================== *)

Definition address_eqb (a b : address) : bool :=
  String.eqb (fst a) (fst b) && Z.eqb (snd a) (snd b).

(** Nothing listens anywhere: every attempt is refused. *)
Definition net_all_down : network :=
  fun _ _ => Raises Exn.ConnectionRefusedError.

(** Everything listens. *)
Definition net_all_up : network := fun _ _ => Connected None.

(** Only the backend listens on localhost:3001. *)
Definition net_only_backend : network :=
  fun a _ =>
    if address_eqb a ("localhost", 3001) then Connected None
    else Raises Exn.ConnectionRefusedError.

(** The frontend times out, the backend listens, the name of the redis
    host does not resolve. *)
Definition net_mixed : network :=
  fun a _ =>
    if address_eqb a ("localhost", 3002) then Raises Exn.socket_timeout
    else if address_eqb a ("localhost", 3001) then Connected None
    else Raises Exn.gaierror.

(** The user interrupts the attempt to reach the backend. *)
Definition net_interrupted : network :=
  fun a _ =>
    if address_eqb a ("localhost", 3001) then Raises Exn.KeyboardInterrupt
    else Connected None.

(** Everything listens, but closing the connection to the frontend
    fails with an [OSError]. *)
Definition net_close_fails : network :=
  fun a _ =>
    if address_eqb a ("localhost", 3002) then Connected (Some Exn.OSError)
    else Connected None.


(** A world with nothing allocated and nothing traced. *)
Definition world0 : world := World ∅ [].

(** A world in which a caller already holds a report of its own. *)
Definition world1 : world :=
  World (<[7%positive := OStatus [("frontend", "UP")]]> ∅) [EvClose ("example.org", 80)].

(* ================================================================== *)
(** ** Sockets held open *)
(* ================================================================== *)




(* ================================================================== *)
(** ** The console, and json.dumps *)
(* ================================================================== *)

(** The interpreter's world together with what was printed: one string
    per call of [print], each written with a newline after it. *)
Record console : Type := Console {
  machine : world;
  stdout : list string
}.

Definition IO (A : Type) : Type := console -> result A * console.

Definition io_ret {A} (a : A) : IO A := fun c => (Returned a, c).

Definition io_bind {A B} (m : IO A) (k : A -> IO B) : IO B :=
  fun c =>
    match m c with
    | (Returned a, c') => k a c'
    | (Raised e, c') => (Raised e, c')
    end.

(** A computation that prints nothing. *)
Definition lift {A} (m : M A) : IO A :=
  fun c =>
    let '(r, w') := m (machine c) in (r, Console w' (stdout c)).

Definition print (s : string) : IO unit :=
  fun c => (Returned tt, Console (machine c) (stdout c ++ [s])).

Declare Scope io_scope.
Delimit Scope io_scope with io.
Notation "'let!' x ':=' m 'in' k" := (io_bind m (fun x => k))
  (at level 10, x pattern, m at level 100, k at level 200) : io_scope.
Notation "m1 '>>>' m2" := (io_bind m1 (fun _ => m2))
  (at level 100, m2 at level 200, right associativity) : io_scope.

Definition quote : string := String (ascii_of_nat 34) EmptyString.

Definition backslash : string := String (ascii_of_nat 92) EmptyString.

Definition newline : string := String (ascii_of_nat 10) EmptyString.

Definition hex_digit (n : nat) : string :=
  String (nth n (list_ascii_of_string "0123456789abcdef") (ascii_of_nat 48))
         EmptyString.

(** The JSON escape of one character of a string (a code point below
    256), as [json.dumps] writes it with [ensure_ascii] left at its
    default: the quote, the backslash and five control characters have a
    two-character escape, every other character outside space..tilde is
    written as a backslash, [u] and four hexadecimal digits, the rest as
    it is. *)
Definition json_escape_char (c : ascii) : string :=
  let n := nat_of_ascii c in
  if Nat.eqb n 34 then (backslash ++ quote)%string
  else if Nat.eqb n 92 then (backslash ++ backslash)%string
  else if Nat.eqb n 8 then (backslash ++ "b")%string
  else if Nat.eqb n 9 then (backslash ++ "t")%string
  else if Nat.eqb n 10 then (backslash ++ "n")%string
  else if Nat.eqb n 12 then (backslash ++ "f")%string
  else if Nat.eqb n 13 then (backslash ++ "r")%string
  else if Nat.ltb n 32 || Nat.ltb 126 n then
    (backslash ++ "u00" ++ hex_digit (Nat.div n 16) ++ hex_digit (Nat.modulo n 16))%string
  else String c EmptyString.

Fixpoint json_escape (s : string) : string :=
  match s with
  | EmptyString => EmptyString
  | String c s' => (json_escape_char c ++ json_escape s')%string
  end.

Definition json_string (s : string) : string :=
  (quote ++ json_escape s ++ quote)%string.

(** A dictionary with [indent=2]: the members, one per line, two spaces
    in, separated by a comma; the empty dictionary is a pair of braces. *)
Definition json_object (members : list string) : string :=
  match members with
  | [] => "{}"
  | _ =>
      ("{" ++ newline
        ++ String.concat ("," ++ newline) (map (String.append "  ") members)
        ++ newline ++ "}")%string
  end.

(** [json.dumps(d, indent=2)] for a dictionary of strings. *)
Definition json_dumps_status (d : dict string) : string :=
  json_object
    (map (fun kv : string * string =>
            (json_string (fst kv) ++ ": " ++ json_string (snd kv))%string) d).

(** The same for a dictionary of addresses; a tuple is written as an
    array, its items one level further in. *)
Definition json_dumps_servers (d : dict address) : string :=
  json_object
    (map (fun kv : string * address =>
            (json_string (fst kv) ++ ": [" ++ newline
              ++ "    " ++ json_string (fst (snd kv)) ++ "," ++ newline
              ++ "    " ++ pretty (snd (snd kv)) ++ newline
              ++ "  ]")%string) d).

(** [json.dumps(ref, indent=2)]. *)
Definition dumps (ref : loc) : IO string :=
  fun c =>
    match heap (machine c) !! ref with
    | Some (OStatus d) => (Returned (json_dumps_status d), c)
    | Some (OServers d) => (Returned (json_dumps_servers d), c)
    | None => (Raised Exn.TypeError, c)
    end.

(** [isinstance(ref, dict) and key in ref]: both kinds of object are
    dictionaries. *)
Definition is_dict_with (ref : loc) (key : string) : IO bool :=
  fun c =>
    match heap (machine c) !! ref with
    | Some (OStatus d) => (Returned (existsb (String.eqb key) (dict_keys d)), c)
    | Some (OServers d) => (Returned (existsb (String.eqb key) (dict_keys d)), c)
    | None => (Raised Exn.TypeError, c)
    end.

(* ================================================================== *)
(** ** test_status *)
(* ================================================================== *)

Definition banner_line : string := "🧪 Testing check_server_status tool...".

Definition valid_line : string := "✅ Tool structure valid.".

Definition invalid_line : string := "❌ Tool output invalid.".

(** [test_status()] of test_steam_tools.py. *)
Definition test_status (net : network) : IO unit :=
  (print banner_line >>>
   let! status := lift (check_server_status net) in
   let! text := dumps status in
   print text >>>
   let! ok := is_dict_with status "frontend" in
   if ok then print valid_line else print invalid_line)%io.

(** What [test_status] printed, after the lines [before]. *)
Definition printed_since (before : list string) (r : result unit * console)
  : list string :=
  drop (length before) (stdout (snd r)).

(** A console on which something was printed before. *)
Definition console1 : console := Console world1 ["$ python test_steam_tools.py"].

(* ================================================================== *)
(** ** Exceptions: what the clause catches *)
(* ================================================================== *)

(** The three classes of the clause catch what [OSError] alone catches. *)
Lemma except_clause_is_OSError (e : Exn.class) :
  Exn.matches except_clause e = transport_level e.
Proof. destruct e; reflexivity. Qed.

Lemma issubclass_refl (c : Exn.class) : Exn.issubclass c c = true.
Proof. destruct c; reflexivity. Qed.

Lemma issubclass_base (c b d : Exn.class) :
  Exn.base c = Some b -> Exn.issubclass b d = true -> Exn.issubclass c d = true.
Proof.
  destruct c; simpl; intros [= <-]; destruct d; vm_compute; congruence.
Qed.

(* ================================================================== *)
(** ** Dictionaries: assignment and lookup *)
(* ================================================================== *)

Section DictFacts.
Context {V : Type}.
Implicit Types (d : dict V) (k : string) (v : V).

Lemma dict_get_set_eq d k v : dict_get (dict_set d k v) k = Some v.
Proof.
  induction d as [|[k' v'] d IH]; simpl.
  - now rewrite String.eqb_refl.
  - destruct (String.eqb k' k) eqn:E; simpl; rewrite E; auto.
Qed.

Lemma dict_get_set_ne d k k' v :
  k <> k' -> dict_get (dict_set d k v) k' = dict_get d k'.
Proof.
  intros Hne. induction d as [|[k0 v0] d IH]; simpl.
  - destruct (String.eqb k k') eqn:E; [apply String.eqb_eq in E; contradiction | reflexivity].
  - destruct (String.eqb k0 k) eqn:E; simpl.
    + apply String.eqb_eq in E. subst k0.
      destruct (String.eqb k k') eqn:E'; [apply String.eqb_eq in E'; contradiction | reflexivity].
    + destruct (String.eqb k0 k'); auto.
Qed.

Lemma dict_set_set d k v v' : dict_set (dict_set d k v) k v' = dict_set d k v'.
Proof.
  induction d as [|[k0 v0] d IH]; simpl.
  - now rewrite String.eqb_refl.
  - destruct (String.eqb k0 k) eqn:E; simpl; rewrite E; [reflexivity|].
    now rewrite IH.
Qed.

Lemma dict_keys_set_old d k v :
  List.In k (dict_keys d) -> dict_keys (dict_set d k v) = dict_keys d.
Proof.
  induction d as [|[k' v'] d IH]; simpl; [tauto|].
  intros Hin. destruct (String.eqb k' k) eqn:E; simpl; [reflexivity|].
  f_equal. apply IH. destruct Hin as [->|]; [|assumption].
  rewrite String.eqb_refl in E. discriminate.
Qed.

Lemma dict_keys_set_new d k v :
  ~ List.In k (dict_keys d) -> dict_keys (dict_set d k v) = dict_keys d ++ [k].
Proof.
  induction d as [|[k' v'] d IH]; simpl; [reflexivity|].
  intros Hnin. destruct (String.eqb k' k) eqn:E; simpl.
  - apply String.eqb_eq in E. tauto.
  - f_equal. apply IH. tauto.
Qed.

Lemma dict_get_In d k v : dict_get d k = Some v -> List.In (k, v) d.
Proof.
  induction d as [|[k' v'] d IH]; simpl; [discriminate|].
  destruct (String.eqb k' k) eqn:E.
  - apply String.eqb_eq in E. intros [= ->]. left. now subst.
  - auto.
Qed.

Lemma dict_In_get d k v :
  List.NoDup (dict_keys d) -> List.In (k, v) d -> dict_get d k = Some v.
Proof.
  induction d as [|[k' v'] d IH]; simpl; [tauto|].
  intros Hnd [Heq|Hin].
  - injection Heq as -> ->. now rewrite String.eqb_refl.
  - apply NoDup_cons_iff in Hnd as [Hnin Hnd].
    destruct (String.eqb k' k) eqn:E; [|auto].
    apply String.eqb_eq in E. subst k'. exfalso. apply Hnin.
    apply (in_map fst) in Hin. exact Hin.
Qed.

End DictFacts.

(* ================================================================== *)
(** ** The loop, one probe at a time *)
(* ================================================================== *)

Section Loop.
Variable net : network.
Variable status : loc.

Lemma probe_run (name : string) (a : address) (d : dict string) (w : world) :
  heap w !! status = Some (OStatus d) ->
  probe net status (name, a) w =
    match net a 1 with
    | Connected None =>
        (Returned tt,
         World (<[status := OStatus (dict_set d name "UP")]> (heap w))
               (trace w ++ [EvConnect a 1; EvConnected a; EvClose a]))
    | Connected (Some e) =>
        if Exn.matches except_clause e then
          (Returned tt,
           World (<[status := OStatus (dict_set (dict_set d name "UP") name "DOWN")]>
                    (heap w))
                 (trace w ++ [EvConnect a 1; EvConnected a; EvClose a]))
        else
          (Raised e,
           World (<[status := OStatus (dict_set d name "UP")]> (heap w))
                 (trace w ++ [EvConnect a 1; EvConnected a; EvClose a]))
    | Raises e =>
        if Exn.matches except_clause e then
          (Returned tt,
           World (<[status := OStatus (dict_set d name "DOWN")]> (heap w))
                 (trace w ++ [EvConnect a 1; EvFailed a e]))
        else
          (Raised e, World (heap w) (trace w ++ [EvConnect a 1; EvFailed a e]))
    end.
Proof.
  intros Hst. destruct a as [host port].
  unfold probe, try_except, with_socket, create_connection, close, bind,
    emit, setitem, ret, raise.
  destruct (net (host, port) 1) as [[e|]|e].
  - cbn [heap trace peer close_raises]. rewrite Hst.
    cbn [heap trace peer close_raises].
    destruct (Exn.matches except_clause e).
    + cbn [heap trace]. rewrite lookup_insert_eq, insert_insert_eq.
      rewrite <- !app_assoc. reflexivity.
    + rewrite <- !app_assoc. reflexivity.
  - cbn [heap trace peer close_raises]. rewrite Hst.
    cbn [heap trace peer close_raises].
    rewrite <- !app_assoc. reflexivity.
  - cbn [heap trace]. destruct (Exn.matches except_clause e).
    + rewrite Hst. rewrite <- !app_assoc. reflexivity.
    + rewrite <- !app_assoc. reflexivity.
Qed.

Lemma for_each_probe (entries : list (string * address)) :
  forall (d : dict string) (w : world),
    heap w !! status = Some (OStatus d) ->
    for_each entries (probe net status) w =
      let '(d', evs, exn) := probe_all net entries d in
      (outcome_result exn,
       World (<[status := OStatus d']> (heap w)) (trace w ++ evs)).
Proof.
  induction entries as [|[name a] rest IH]; intros d w Hst.
  - simpl. unfold ret. rewrite insert_id by exact Hst. rewrite app_nil_r.
    destruct w; reflexivity.
  - cbn [for_each probe_all]. unfold bind at 1.
    rewrite (probe_run name a d w Hst).
    destruct (net a 1) as [[e|]|e].
    + destruct (Exn.matches except_clause e).
      * rewrite (IH (dict_set (dict_set d name "UP") name "DOWN"))
          by (simpl; apply lookup_insert_eq).
        destruct (probe_all net rest (dict_set (dict_set d name "UP") name "DOWN"))
          as [[d' evs] exn].
        simpl. rewrite insert_insert_eq, <- app_assoc. reflexivity.
      * reflexivity.
    + rewrite (IH (dict_set d name "UP")) by (simpl; apply lookup_insert_eq).
      destruct (probe_all net rest (dict_set d name "UP")) as [[d' evs] exn].
      simpl. rewrite insert_insert_eq, <- app_assoc. reflexivity.
    + destruct (Exn.matches except_clause e).
      * rewrite (IH (dict_set d name "DOWN")) by (simpl; apply lookup_insert_eq).
        destruct (probe_all net rest (dict_set d name "DOWN")) as [[d' evs] exn].
        simpl. rewrite insert_insert_eq, <- app_assoc. reflexivity.
      * simpl. rewrite insert_id by exact Hst. reflexivity.
Qed.

End Loop.

(* ================================================================== *)
(** ** The loop as a fold *)
(* ================================================================== *)

Section ProbeAll.
Variable net : network.

(** When every attempt connects or fails at transport level, no
    exception leaves the loop: it is the fold of [record]. *)
Lemma probe_all_transport (entries : list (string * address)) :
  answers net entries ->
  forall d,
    probe_all net entries d =
      (fold_left (record net) entries d,
       flat_map (probe_events net) entries,
       None).
Proof.
  induction 1 as [|[name a] rest Hhd Htl IH]; intros d; [reflexivity|].
  cbn [probe_all fold_left flat_map]. unfold record at 2, probe_events at 1.
  cbn [fst snd] in *. destruct (net a 1) as [[e|]|e]; cbn [verdict].
  - simpl in Hhd. rewrite except_clause_is_OSError, Hhd, dict_set_set, IH.
    reflexivity.
  - rewrite IH. reflexivity.
  - simpl in Hhd. rewrite except_clause_is_OSError, Hhd, IH. reflexivity.
Qed.

(** The values written are "UP" and "DOWN", whatever leaves the loop. *)
Lemma dict_set_values (P : string -> Prop) (d : dict string) k v :
  Forall P (dict_values d) -> P v -> Forall P (dict_values (dict_set d k v)).
Proof.
  induction d as [|[k' v'] d IH]; simpl; intros Hd Hv.
  - constructor; [assumption | constructor].
  - apply Forall_cons_iff in Hd as [Hv' Hd].
    destruct (String.eqb k' k); simpl; constructor; auto.
Qed.

Lemma probe_all_values (P : string -> Prop) (entries : list (string * address)) :
  P "UP" -> P "DOWN" ->
  forall d, Forall P (dict_values d) ->
    Forall P (dict_values (fst (fst (probe_all net entries d)))).
Proof.
  intros Hup Hdown.
  induction entries as [|[name a] rest IH]; intros d Hd; [exact Hd|].
  pose proof (dict_set_values P d name "UP" Hd Hup) as Hd_up.
  cbn [probe_all]. destruct (net a 1) as [[e|]|e].
  - destruct (Exn.matches except_clause e); [|exact Hd_up].
    specialize (IH (dict_set (dict_set d name "UP") name "DOWN")
                  (dict_set_values P _ name "DOWN" Hd_up Hdown)).
    destruct (probe_all net rest (dict_set (dict_set d name "UP") name "DOWN"))
      as [[d' evs] exn].
    exact IH.
  - specialize (IH (dict_set d name "UP") Hd_up).
    destruct (probe_all net rest (dict_set d name "UP")) as [[d' evs] exn].
    exact IH.
  - destruct (Exn.matches except_clause e); [|exact Hd].
    specialize (IH (dict_set d name "DOWN") (dict_set_values P d name "DOWN" Hd Hdown)).
    destruct (probe_all net rest (dict_set d name "DOWN")) as [[d' evs] exn].
    exact IH.
Qed.

(** Keys: new names are appended in the order of the entries. *)
Lemma record_all_keys (entries : list (string * address)) :
  forall d,
    List.NoDup (dict_keys d ++ dict_keys entries) ->
    dict_keys (fold_left (record net) entries d) = dict_keys d ++ dict_keys entries.
Proof.
  induction entries as [|[name a] rest IH]; intros d Hnd; simpl.
  - now rewrite app_nil_r.
  - assert (Hnew : ~ List.In name (dict_keys d)).
    { intros Hin. apply NoDup_remove_2 in Hnd. apply Hnd.
      apply in_or_app. now left. }
    rewrite IH; unfold record; cbn [fst snd].
    + rewrite dict_keys_set_new by exact Hnew. now rewrite <- app_assoc.
    + rewrite dict_keys_set_new by exact Hnew. rewrite <- app_assoc. exact Hnd.
Qed.

(** Lookup: a name bound once among the entries ends with the verdict
    of its own address. *)
Lemma record_all_get_other (entries : list (string * address)) k :
  ~ List.In k (dict_keys entries) ->
  forall d, dict_get (fold_left (record net) entries d) k = dict_get d k.
Proof.
  induction entries as [|[name a] rest IH]; intros Hnin d; [reflexivity|].
  simpl in Hnin. cbn [fold_left]. rewrite IH by tauto.
  unfold record; cbn [fst snd]. apply dict_get_set_ne. tauto.
Qed.

Lemma record_all_get (entries : list (string * address)) name a :
  List.NoDup (dict_keys entries) ->
  List.In (name, a) entries ->
  forall d,
    dict_get (fold_left (record net) entries d) name = Some (verdict (net a 1)).
Proof.
  induction entries as [|[name' a'] rest IH]; intros Hnd Hin d; [destruct Hin|].
  simpl in Hnd. apply NoDup_cons_iff in Hnd as [Hnin Hnd].
  cbn [fold_left]. destruct Hin as [Heq|Hin].
  - injection Heq as -> ->. rewrite record_all_get_other by exact Hnin.
    unfold record; cbn [fst snd]. apply dict_get_set_eq.
  - apply IH; assumption.
Qed.

(** Events: a connection is closed by the very next event. *)
Lemma probe_events_close (entries : list (string * address)) (a : address) :
  forall i : nat,
    flat_map (probe_events net) entries !! i = Some (EvConnected a) ->
    flat_map (probe_events net) entries !! S i = Some (EvClose a).
Proof.
  induction entries as [|[name a'] rest IH]; intros i; [discriminate|].
  cbn [flat_map]. unfold probe_events at 1 3. cbn [snd].
  destruct (net a' 1) as [closing|e].
  - destruct i as [|[|[|i]]]; simpl; try discriminate.
    + intros [= ->]. reflexivity.
    + apply IH.
  - destruct i as [|[|i]]; simpl; try discriminate. apply IH.
Qed.

Lemma probe_events_connected (entries : list (string * address)) name a closing :
  List.In (name, a) entries -> net a 1 = Connected closing ->
  List.In (EvConnected a) (flat_map (probe_events net) entries).
Proof.
  intros Hin Hnet. apply in_flat_map. exists (name, a). split; [exact Hin|].
  unfold probe_events; cbn [snd]. rewrite Hnet. simpl. tauto.
Qed.

End ProbeAll.

(* ================================================================== *)
(** ** One call, from any world *)
(* ================================================================== *)

Lemma servers_loc_fresh (w : world) : heap w !! servers_loc w = None.
Proof. apply not_elem_of_dom. unfold servers_loc. apply is_fresh. Qed.

Lemma status_loc_fresh (w : world) :
  (<[servers_loc w := OServers servers]> (heap w)) !! status_loc w = None.
Proof. apply not_elem_of_dom. unfold status_loc. apply is_fresh. Qed.

Lemma status_loc_servers_loc (w : world) : servers_loc w <> status_loc w.
Proof.
  intros Heq. pose proof (status_loc_fresh w) as Hf.
  rewrite <- Heq, lookup_insert_eq in Hf. discriminate.
Qed.

Lemma status_loc_fresh_heap (w : world) : heap w !! status_loc w = None.
Proof.
  pose proof (status_loc_fresh w) as Hf.
  rewrite lookup_insert_ne in Hf by apply status_loc_servers_loc. exact Hf.
Qed.

Lemma check_server_status_run (net : network) (w : world) :
  check_server_status net w =
    let '(d, evs, exn) := probe_all net servers [] in
    (match exn with
     | None => Returned (status_loc w)
     | Some e => Raised e
     end,
     World (heap_after w d) (trace w ++ evs)).
Proof.
  unfold check_server_status, heap_after.
  unfold bind at 1. unfold alloc at 1. cbn [heap trace]. fold (servers_loc w).
  unfold bind at 1. unfold alloc at 1. cbn [heap trace]. fold (status_loc w).
  unfold bind at 1. unfold items. cbn [heap trace].
  rewrite lookup_insert_ne by (apply not_eq_sym, status_loc_servers_loc).
  rewrite lookup_insert_eq.
  unfold bind. rewrite (for_each_probe net (status_loc w) servers [])
    by (cbn [heap]; apply lookup_insert_eq).
  destruct (probe_all net servers []) as [[d evs] [e|]]; cbn [outcome_result heap trace];
    rewrite insert_insert_eq; reflexivity.
Qed.

(** A run on a network that only connects or fails at transport level
    returns, and leaves the report [report net]. *)
Lemma transport_run (net : network) (w : world) :
  transport_only net ->
  check_server_status net w =
    (Returned (status_loc w),
     World (heap_after w (report net))
           (trace w ++ flat_map (probe_events net) servers)).
Proof.
  intros Hnet. rewrite check_server_status_run.
  rewrite (probe_all_transport net servers Hnet []). reflexivity.
Qed.

Lemma transport_report (net : network) (w : world) :
  transport_only net ->
  report_of (check_server_status net w) = Some (report net).
Proof.
  intros Hnet. rewrite (transport_run net w Hnet).
  unfold report_of, heap_after; cbn [heap]. rewrite lookup_insert_eq. reflexivity.
Qed.

Lemma transport_events (net : network) (w : world) :
  transport_only net ->
  events_since (trace w) (check_server_status net w) =
    flat_map (probe_events net) servers.
Proof.
  intros Hnet. rewrite (transport_run net w Hnet).
  unfold events_since; cbn [snd trace]. apply drop_app_length.
Qed.

Lemma run_events (net : network) (w : world) :
  events_since (trace w) (check_server_status net w) =
    snd (fst (probe_all net servers [])).
Proof.
  rewrite check_server_status_run.
  destruct (probe_all net servers []) as [[d evs] exn].
  unfold events_since; cbn [fst snd trace]. apply drop_app_length.
Qed.

Lemma servers_keys_NoDup : List.NoDup (dict_keys servers).
Proof.
  unfold servers, dict_keys; simpl.
  repeat (constructor; [simpl; intuition discriminate|]). constructor.
Qed.

Lemma report_keys (net : network) : dict_keys (report net) = dict_keys servers.
Proof.
  unfold report. rewrite record_all_keys; [reflexivity|].
  simpl. apply servers_keys_NoDup.
Qed.

Lemma report_get (net : network) (name : string) (a : address) :
  List.In (name, a) servers ->
  dict_get (report net) name = Some (verdict (net a 1)).
Proof. intros Hin. apply record_all_get; [apply servers_keys_NoDup | exact Hin]. Qed.

(** The attempts of the loop are made in the order of the entries, each
    with the timeout 1, and stop at the first exception let through. *)
Lemma probe_all_attempts (net : network) (entries : list (string * address)) :
  forall d, exists n : nat,
    attempts (snd (fst (probe_all net entries d))) =
      take n (map (fun entry : string * address => (snd entry, 1)) entries).
Proof.
  induction entries as [|[name a] rest IH]; intros d.
  - exists 0%nat. reflexivity.
  - cbn [probe_all]. destruct (net a 1) as [[e|]|e].
    + destruct (Exn.matches except_clause e).
      * destruct (IH (dict_set (dict_set d name "UP") name "DOWN")) as [n Hn].
        destruct (probe_all net rest (dict_set (dict_set d name "UP") name "DOWN"))
          as [[d' evs] exn].
        exists (S n). cbn [fst snd] in *. simpl. f_equal. exact Hn.
      * exists 1%nat. reflexivity.
    + destruct (IH (dict_set d name "UP")) as [n Hn].
      destruct (probe_all net rest (dict_set d name "UP")) as [[d' evs] exn].
      exists (S n). cbn [fst snd] in *. simpl. f_equal. exact Hn.
    + destruct (Exn.matches except_clause e).
      * destruct (IH (dict_set d name "DOWN")) as [n Hn].
        destruct (probe_all net rest (dict_set d name "DOWN")) as [[d' evs] exn].
        exists (S n). cbn [fst snd] in *. simpl. f_equal. exact Hn.
      * exists 1%nat. reflexivity.
Qed.

Lemma probe_events_attempts (net : network) (entries : list (string * address)) :
  attempts (flat_map (probe_events net) entries) =
    map (fun entry : string * address => (snd entry, 1)) entries.
Proof.
  induction entries as [|[name a] rest IH]; [reflexivity|].
  cbn [flat_map map]. unfold probe_events at 1; cbn [snd].
  unfold attempts in *. rewrite flat_map_app, IH.
  destruct (net a 1); reflexivity.
Qed.

(** The concrete networks only connect or fail at transport level. *)
Lemma net_all_down_transport : transport_only net_all_down.
Proof. repeat constructor. Qed.

Lemma net_all_up_transport : transport_only net_all_up.
Proof. repeat constructor. Qed.

Lemma net_only_backend_transport : transport_only net_only_backend.
Proof. repeat constructor. Qed.

Lemma net_mixed_transport : transport_only net_mixed.
Proof. repeat constructor. Qed.

(* ================================================================== *)
(** ** The status report *)
(* ================================================================== *)

(** C1.  Whatever mix of connections and transport-level failures the
    three probes meet, the call returns a report with exactly one entry
    per target of [servers], keyed by the target's name: no key twice,
    no name missing, no key that is not a name, three entries. *)
Theorem report_one_entry_per_target (net : network) (w : world) :
  transport_only net ->
  exists d : dict string,
    report_of (check_server_status net w) = Some d /\
    List.NoDup (dict_keys d) /\
    (forall name : string,
        List.In name (dict_keys d) <-> exists a, List.In (name, a) servers) /\
    length d = 3%nat.
Proof.
  intros Hnet. exists (report net). split; [apply transport_report, Hnet|].
  pose proof (report_keys net) as Hkeys.
  split; [rewrite Hkeys; apply servers_keys_NoDup|].
  split.
  - intros name. rewrite Hkeys. unfold dict_keys. rewrite in_map_iff. split.
    + intros [[name' a] [Hfst Hin]]. simpl in Hfst. subst name'. now exists a.
    + intros [a Hin]. now exists (name, a).
  - apply (f_equal (@length string)) in Hkeys.
    unfold dict_keys in Hkeys. rewrite !length_map in Hkeys. exact Hkeys.
Qed.

Lemma report_one_entry_per_target_witness :
  transport_only net_mixed /\
  exists d : dict string,
    report_of (check_server_status net_mixed world1) = Some d /\
    List.NoDup (dict_keys d) /\
    (forall name : string,
        List.In name (dict_keys d) <-> exists a, List.In (name, a) servers) /\
    length d = 3%nat.
Proof.
  assert (H : transport_only net_mixed) by (repeat constructor).
  split; [exact H | exact (report_one_entry_per_target net_mixed world1 H)].
Defined.

(** C2.  The [status] dictionary of a call holds no value other than
    "UP" and "DOWN": this is so of the dictionary the call built in any
    world and on any network, whether it returned or an exception left
    it; a call that returns returns that dictionary; and on a network
    that connects or fails at transport level the call does return. *)
Theorem report_values_UP_or_DOWN (net : network) (w : world) :
  let r := check_server_status net w in
  (exists d : dict string,
      heap (snd r) !! status_loc w = Some (OStatus d) /\
      Forall (fun v : string => v = "UP" \/ v = "DOWN") (dict_values d)) /\
  (forall l : loc, fst r = Returned l -> l = status_loc w) /\
  (transport_only net -> fst r = Returned (status_loc w)).
Proof.
  cbv zeta. rewrite check_server_status_run.
  pose proof (probe_all_values net (fun v => v = "UP" \/ v = "DOWN") servers
                (or_introl eq_refl) (or_intror eq_refl) [] (List.Forall_nil _)) as Hvals.
  pose proof (fun H => probe_all_transport net servers H []) as Htr.
  destruct (probe_all net servers []) as [[d evs] exn]. cbn [fst snd] in *.
  split; [|split].
  - exists d. split; [|exact Hvals].
    unfold heap_after; cbn [heap]. apply lookup_insert_eq.
  - destruct exn; [discriminate|]. now intros l [= <-].
  - intros Hnet. specialize (Htr Hnet).
    injection Htr as _ _ ->. reflexivity.
Qed.

Lemma report_values_UP_or_DOWN_witness :
  transport_only net_mixed /\
  let r := check_server_status net_mixed world1 in
  (exists d : dict string,
      heap (snd r) !! status_loc world1 = Some (OStatus d) /\
      Forall (fun v : string => v = "UP" \/ v = "DOWN") (dict_values d)) /\
  (forall l : loc, fst r = Returned l -> l = status_loc world1) /\
  fst r = Returned (status_loc world1).
Proof.
  assert (H : transport_only net_mixed) by (repeat constructor).
  split; [exact H|].
  destruct (report_values_UP_or_DOWN net_mixed world1) as (Hvals & Hloc & Hret).
  split; [exact Hvals|]. split; [exact Hloc | exact (Hret H)].
Defined.

(** C3.  When every failing probe fails at transport level (a timeout, a
    refused connection, an unreachable host, a name that does not
    resolve, or any other [OSError]), the call raises nothing: it returns
    its report, and every target whose probe failed is recorded "DOWN".
    The named failures are all transport-level ones. *)
Theorem transport_failures_recorded_DOWN (net : network) (w : world) :
  transport_only net ->
  (exists (l : loc) (d : dict string),
      fst (check_server_status net w) = Returned l /\
      heap (snd (check_server_status net w)) !! l = Some (OStatus d) /\
      forall name a e,
        List.In (name, a) servers -> net a 1 = Raises e ->
        dict_get d name = Some "DOWN") /\
  Forall (fun e => transport_level e = true)
         [Exn.socket_timeout; Exn.TimeoutError; Exn.ConnectionRefusedError;
          Exn.ConnectionResetError; Exn.ConnectionError; Exn.gaierror;
          Exn.herror; Exn.OSError].
Proof.
  intros Hnet. split; [|repeat constructor].
  exists (status_loc w), (report net). rewrite (transport_run net w Hnet).
  cbn [fst snd heap]. split; [reflexivity|]. split.
  - unfold heap_after. apply lookup_insert_eq.
  - intros name a e Hin Hfail. rewrite (report_get net name a Hin), Hfail.
    reflexivity.
Qed.

Lemma transport_failures_recorded_DOWN_witness :
  transport_only net_mixed /\
  net_mixed ("localhost", 3002) 1 = Raises Exn.socket_timeout /\
  net_mixed ("localhost", 6379) 1 = Raises Exn.gaierror /\
  (exists (l : loc) (d : dict string),
      fst (check_server_status net_mixed world0) = Returned l /\
      heap (snd (check_server_status net_mixed world0)) !! l = Some (OStatus d) /\
      forall name a e,
        List.In (name, a) servers -> net_mixed a 1 = Raises e ->
        dict_get d name = Some "DOWN").
Proof.
  assert (H : transport_only net_mixed) by (repeat constructor).
  split; [exact H|]. split; [reflexivity|]. split; [reflexivity|].
  exact (proj1 (transport_failures_recorded_DOWN net_mixed world0 H)).
Defined.

(** C4, as the code has it.  A target whose connection attempt succeeds
    has its connection established during the call, and the event that
    follows the establishment is the close of that same connection:
    nothing, and so no attempt on a later target, comes between the
    two.  The target is recorded "UP" when that close raises nothing. *)
Theorem connected_target_UP_and_closed
    (net : network) (w : world) (name : string) (a : address)
    (closing : option Exn.class) :
  transport_only net ->
  List.In (name, a) servers ->
  net a 1 = Connected closing ->
  exists d : dict string,
    report_of (check_server_status net w) = Some d /\
    (closing = None -> dict_get d name = Some "UP") /\
    let evs := events_since (trace w) (check_server_status net w) in
    List.In (EvConnected a) evs /\
    forall i : nat,
      evs !! i = Some (EvConnected a) -> evs !! S i = Some (EvClose a).
Proof.
  intros Hnet Hin Hup. exists (report net).
  split; [apply transport_report, Hnet|].
  split; [intros ->; rewrite (report_get net name a Hin), Hup; reflexivity|].
  cbv zeta. rewrite (transport_events net w Hnet). split.
  - exact (probe_events_connected net servers name a closing Hin Hup).
  - apply probe_events_close.
Qed.

Lemma connected_target_UP_and_closed_witness :
  transport_only net_only_backend /\
  List.In ("backend", ("localhost", 3001)) servers /\
  net_only_backend ("localhost", 3001) 1 = Connected None /\
  exists d : dict string,
    report_of (check_server_status net_only_backend world0) = Some d /\
    dict_get d "backend" = Some "UP" /\
    let evs := events_since (trace world0)
                 (check_server_status net_only_backend world0) in
    List.In (EvConnected ("localhost", 3001)) evs /\
    forall i : nat,
      evs !! i = Some (EvConnected ("localhost", 3001)) ->
      evs !! S i = Some (EvClose ("localhost", 3001)).
Proof.
  assert (H : transport_only net_only_backend) by (repeat constructor).
  assert (Hin : List.In ("backend", ("localhost", 3001)) servers)
    by (simpl; tauto).
  split; [exact H|]. split; [exact Hin|]. split; [reflexivity|].
  destruct (connected_target_UP_and_closed net_only_backend world0
              "backend" ("localhost", 3001) None H Hin eq_refl)
    as (d & Hd & Hup & Hevs).
  exists d. split; [exact Hd|]. split; [exact (Hup eq_refl) | exact Hevs].
Defined.

(** C4, as the claim has it, fails: the connection to the frontend is
    established within the timeout, but its close raises an [OSError];
    the [with] statement is inside the [try], so the clause catches the
    error and "DOWN" is written over the "UP" of the frontend. *)
Lemma connected_target_recorded_DOWN :
  let r := check_server_status net_close_fails world0 in
  net_close_fails ("localhost", 3002) 1 = Connected (Some Exn.OSError) /\
  List.In (EvConnected ("localhost", 3002)) (events_since (trace world0) r) /\
  report_of r = Some [("frontend", "DOWN"); ("backend", "UP"); ("redis", "UP")] /\
  ~ (exists d : dict string,
        report_of r = Some d /\ dict_get d "frontend" = Some "UP").
Proof.
  cbv zeta. split; [reflexivity|]. split; [vm_compute; tauto|].
  split; [vm_compute; reflexivity|].
  intros (d & Hd & Hup).
  assert (Hr : report_of (check_server_status net_close_fails world0) =
               Some [("frontend", "DOWN"); ("backend", "UP"); ("redis", "UP")])
    by (vm_compute; reflexivity).
  rewrite Hr in Hd. injection Hd as <-. discriminate Hup.
Qed.

(** C6.  The call probes the three hardcoded targets and nothing else:
    its connection attempts go, in this order, to localhost:3002,
    localhost:3001 and localhost:6379 (a first part of this list when an
    exception leaves the call, the whole list otherwise), the report is
    keyed frontend, backend, redis in step with them, and the [servers]
    dictionary is at the end of the call what it was when created. *)
Theorem probed_targets_fixed (net : network) (w : world) :
  let r := check_server_status net w in
  let targets :=
    [("frontend", ("localhost", 3002)); ("backend", ("localhost", 3001));
     ("redis", ("localhost", 6379))] in
  heap (snd r) !! servers_loc w = Some (OServers targets) /\
  (exists n : nat,
      map fst (attempts (events_since (trace w) r)) = take n (map snd targets)) /\
  (transport_only net ->
   map fst (attempts (events_since (trace w) r)) = map snd targets /\
   exists d : dict string,
     report_of r = Some d /\
     zip (dict_keys d) (map fst (attempts (events_since (trace w) r))) = targets).
Proof.
  cbv zeta. split; [|split].
  - rewrite check_server_status_run.
    destruct (probe_all net servers []) as [[d evs] exn]. cbn [snd heap].
    unfold heap_after. rewrite lookup_insert_ne.
    + apply lookup_insert_eq.
    + apply not_eq_sym, status_loc_servers_loc.
  - rewrite run_events. destruct (probe_all_attempts net servers []) as [n Hn].
    exists n. rewrite Hn, <- firstn_map. reflexivity.
  - intros Hnet. rewrite (transport_events net w Hnet), probe_events_attempts.
    split; [reflexivity|]. exists (report net).
    split; [apply transport_report, Hnet|].
    rewrite report_keys. reflexivity.
Qed.

Lemma probed_targets_fixed_witness :
  transport_only net_mixed /\
  let r := check_server_status net_mixed world1 in
  let targets :=
    [("frontend", ("localhost", 3002)); ("backend", ("localhost", 3001));
     ("redis", ("localhost", 6379))] in
  heap (snd r) !! servers_loc world1 = Some (OServers targets) /\
  (exists n : nat,
      map fst (attempts (events_since (trace world1) r)) = take n (map snd targets)) /\
  map fst (attempts (events_since (trace world1) r)) = map snd targets /\
  exists d : dict string,
    report_of r = Some d /\
    zip (dict_keys d) (map fst (attempts (events_since (trace world1) r))) = targets.
Proof.
  assert (H : transport_only net_mixed) by (repeat constructor).
  split; [exact H|].
  destruct (probed_targets_fixed net_mixed world1) as (Hobj & Hprefix & Hall).
  split; [exact Hobj|]. split; [exact Hprefix | exact (Hall H)].
Defined.

(** C9.  The keys of the returned report come in the insertion order of
    the [servers] literal: frontend, backend, redis, whatever the three
    probes meet. *)
Theorem report_key_order (net : network) (w : world) :
  transport_only net ->
  exists d : dict string,
    report_of (check_server_status net w) = Some d /\
    dict_keys d = ["frontend"; "backend"; "redis"].
Proof.
  intros Hnet. exists (report net). split; [apply transport_report, Hnet|].
  rewrite report_keys. reflexivity.
Qed.

Lemma report_key_order_witness :
  transport_only net_only_backend /\
  exists d : dict string,
    report_of (check_server_status net_only_backend world1) = Some d /\
    dict_keys d = ["frontend"; "backend"; "redis"].
Proof.
  assert (H : transport_only net_only_backend) by (repeat constructor).
  split; [exact H | exact (report_key_order net_only_backend world1 H)].
Defined.



(* ================================================================== *)
(** ** The interface of the call *)
(* ================================================================== *)

Lemma run_attempts_timeout (net : network) (w : world) :
  Forall (fun at_ : address * Z => snd at_ = 1)
         (attempts (events_since (trace w) (check_server_status net w))).
Proof.
  rewrite run_events. destruct (probe_all_attempts net servers []) as [n ->].
  apply Forall_take. repeat constructor.
Qed.

(** C5, as the code has it.  The call takes no argument: passing any
    positional or keyword argument raises [TypeError] and leaves the
    world as it was; the call without arguments makes every connection
    attempt with the timeout 1 and, when no exception leaves it, returns
    the report of the three hardcoded targets, which it probed at their
    hardcoded addresses. *)
Theorem call_takes_no_argument (net : network) (w : world) :
  (forall args kwargs,
      args <> [] \/ kwargs <> [] ->
      call_check_server_status args kwargs net w = (Raised Exn.TypeError, w)) /\
  Forall (fun at_ : address * Z => snd at_ = 1)
         (attempts (events_since (trace w)
                      (call_check_server_status [] [] net w))) /\
  (transport_only net ->
   exists d : dict string,
     report_of (call_check_server_status [] [] net w) = Some d /\
     dict_keys d = ["frontend"; "backend"; "redis"] /\
     attempts (events_since (trace w) (call_check_server_status [] [] net w)) =
       [(("localhost", 3002), 1); (("localhost", 3001), 1);
        (("localhost", 6379), 1)]).
Proof.
  split; [|split].
  - intros [|v args] [|kv kwargs] [H|H]; try reflexivity; contradiction.
  - apply run_attempts_timeout.
  - intros Hnet. exists (report net). cbn [call_check_server_status].
    split; [apply transport_report, Hnet|].
    split; [rewrite report_keys; reflexivity|].
    rewrite (transport_events net w Hnet), probe_events_attempts. reflexivity.
Qed.

Lemma call_takes_no_argument_witness :
  transport_only net_all_down /\
  (forall args kwargs,
      args <> [] \/ kwargs <> [] ->
      call_check_server_status args kwargs net_all_down world0 =
        (Raised Exn.TypeError, world0)) /\
  Forall (fun at_ : address * Z => snd at_ = 1)
         (attempts (events_since (trace world0)
                      (call_check_server_status [] [] net_all_down world0))) /\
  (transport_only net_all_down ->
   exists d : dict string,
     report_of (call_check_server_status [] [] net_all_down world0) = Some d /\
     dict_keys d = ["frontend"; "backend"; "redis"] /\
     attempts (events_since (trace world0)
                 (call_check_server_status [] [] net_all_down world0)) =
       [(("localhost", 3002), 1); (("localhost", 3001), 1);
        (("localhost", 6379), 1)]).
Proof.
  split; [repeat constructor|].
  exact (call_takes_no_argument net_all_down world0).
Defined.

(** C5, as the claim has it, fails: a caller that supplies the target
    ("db", "localhost", 5432) and the timeout 2 gets a [TypeError], not
    the report of the supplied target; the same with the timeout passed
    by keyword. *)
Lemma call_with_targets_rejected :
  let targets := VTargets [("db", ("localhost", 5432))] in
  fst (call_check_server_status [targets; VNum 2] [] net_all_up world0)
    = Raised Exn.TypeError /\
  fst (call_check_server_status [targets] [("timeout_seconds", VNum 2)]
         net_all_up world0)
    = Raised Exn.TypeError /\
  ~ (exists d : dict string,
        report_of (call_check_server_status [targets; VNum 2] [] net_all_up world0)
          = Some d /\
        dict_keys d = ["db"]).
Proof.
  cbv zeta. split; [reflexivity|]. split; [reflexivity|].
  intros [d [Hd _]]. discriminate Hd.
Qed.

(* ================================================================== *)
(** ** The call and the rest of the program *)
(* ================================================================== *)

(** The report of a run does not depend on the world it starts from. *)
Lemma run_report (net : network) (w : world) :
  report_of (check_server_status net w) =
    match probe_all net servers [] with
    | (d, _, None) => Some d
    | (_, _, Some _) => None
    end.
Proof.
  rewrite check_server_status_run.
  destruct (probe_all net servers []) as [[d evs] [e|]]; [reflexivity|].
  unfold report_of, heap_after; cbn [heap]. rewrite lookup_insert_eq. reflexivity.
Qed.

Lemma run_result (net : network) (w : world) :
  fst (check_server_status net w) =
    match probe_all net servers [] with
    | (_, _, None) => Returned (status_loc w)
    | (_, _, Some e) => Raised e
    end.
Proof.
  rewrite check_server_status_run.
  destruct (probe_all net servers []) as [[d evs] [e|]]; reflexivity.
Qed.

Lemma run_heap (net : network) (w : world) :
  heap (snd (check_server_status net w)) =
    heap_after w (fst (fst (probe_all net servers []))).
Proof.
  rewrite check_server_status_run.
  destruct (probe_all net servers []) as [[d evs] exn]. reflexivity.
Qed.

(** Objects that exist before a call are the same after it. *)
Lemma run_frame (net : network) (w : world) (l : loc) (o : obj) :
  heap w !! l = Some o ->
  heap (snd (check_server_status net w)) !! l = Some o.
Proof.
  intros Hl. rewrite run_heap. unfold heap_after.
  rewrite !lookup_insert_ne; [exact Hl| |].
  - intros <-. rewrite servers_loc_fresh in Hl. discriminate.
  - intros <-. rewrite status_loc_fresh_heap in Hl. discriminate.
Qed.

(** The returned dictionary did not exist before the call. *)
Lemma run_fresh (net : network) (w : world) (l : loc) :
  fst (check_server_status net w) = Returned l -> heap w !! l = None.
Proof.
  rewrite run_result. destruct (probe_all net servers []) as [[d evs] [e|]];
    [discriminate|]. intros [= <-]. apply status_loc_fresh_heap.
Qed.

(* ================================================================== *)
(** ** Statement by statement: the same call *)
(* ================================================================== *)

Lemma steps_Finished (net : network) (n : nat) (r : result loc) (w : world) :
  steps net n (Finished r) w = (Finished r, w).
Proof. induction n as [|n IH]; [reflexivity | exact IH]. Qed.

Lemma steps_loop (net : network) (status : loc)
    (entries : list (string * address)) :
  forall (n : nat) (w : world),
    (length entries < n)%nat ->
    steps net n (InLoop status entries) w =
      (Finished (match fst (for_each entries (probe net status) w) with
                 | Returned _ => Returned status
                 | Raised e => Raised e
                 end),
       snd (for_each entries (probe net status) w)).
Proof.
  induction entries as [|entry rest IH]; intros n w Hn.
  - destruct n as [|n]; [inversion Hn|]. cbn [steps step for_each].
    apply steps_Finished.
  - destruct n as [|n]; [inversion Hn|]. cbn [steps step for_each].
    unfold bind. destruct (probe net status entry w) as [[[]|e] w'].
    + apply IH. simpl in Hn. lia.
    + apply steps_Finished.
Qed.

Lemma steps_S (net : network) (n : nat) (c : call_state) (w : world) :
  steps net (S n) c w = steps net n (fst (step net c w)) (snd (step net c w)).
Proof. cbn [steps]. destruct (step net c w). reflexivity. Qed.

(** Seven statements run the whole call. *)
Lemma steps_sequential (net : network) (w : world) :
  steps net 7 AtEntry w =
    (Finished (fst (check_server_status net w)),
     snd (check_server_status net w)).
Proof.
  rewrite steps_S.
  change (step net AtEntry w)
    with (AtStatus (servers_loc w),
          World (<[servers_loc w := OServers servers]> (heap w)) (trace w)).
  cbn [fst snd]. rewrite steps_S.
  change (step net (AtStatus (servers_loc w)) _)
    with (AtFor (servers_loc w) (status_loc w),
          World (<[status_loc w := OStatus []]>
                   (<[servers_loc w := OServers servers]> (heap w))) (trace w)).
  cbn [fst snd]. rewrite steps_S.
  unfold step at 1 2, items. cbn [heap].
  rewrite lookup_insert_ne by (apply not_eq_sym, status_loc_servers_loc).
  rewrite lookup_insert_eq. cbn [fst snd].
  rewrite steps_loop by (simpl; lia).
  rewrite (for_each_probe net (status_loc w) servers [])
    by (cbn [heap]; apply lookup_insert_eq).
  rewrite check_server_status_run.
  destruct (probe_all net servers []) as [[d evs] [e|]];
    cbn [fst snd outcome_result heap trace]; unfold heap_after;
    rewrite insert_insert_eq; reflexivity.
Qed.

(* ================================================================== *)
(** ** Two calls at once *)
(* ================================================================== *)

Section Statements.
Variable net : network.
Hypothesis net_transport : transport_only net.

(** A call holds only objects that exist. *)
Lemma call_inv_owned (c : call_state) (h : gmap loc obj) (l : loc) :
  call_inv net c h -> List.In l (owned c) -> is_Some (h !! l).
Proof.
  destruct c as [|sl|sl st|st pending|[st|e]]; simpl.
  - tauto.
  - intros Hsl [<-|[]]. eauto.
  - intros (_ & Hsl & Hst) [<-|[<-|[]]]; eauto.
  - intros (probed & _ & Hst) [<-|[]]. eauto.
  - intros Hst [<-|[]]. eauto.
  - tauto.
Qed.

(** Its invariant speaks of these objects only. *)
Lemma call_inv_frame (c : call_state) (h h' : gmap loc obj) :
  (forall l, List.In l (owned c) -> h' !! l = h !! l) ->
  call_inv net c h -> call_inv net c h'.
Proof.
  destruct c as [|sl|sl st|st pending|[st|e]]; simpl; intros Hsame.
  - tauto.
  - intros Hsl. rewrite Hsame by tauto. exact Hsl.
  - intros (Hne & Hsl & Hst). rewrite !Hsame by tauto. tauto.
  - intros (probed & Hsplit & Hst). exists probed.
    rewrite Hsame by tauto. tauto.
  - intros Hst. rewrite Hsame by tauto. exact Hst.
  - tauto.
Qed.

(** An iteration whose attempt connects or fails at transport level. *)
Lemma probe_run_answer (name : string) (a : address) (d : dict string)
    (w : world) (status : loc) :
  up_or_down (net a 1) ->
  heap w !! status = Some (OStatus d) ->
  probe net status (name, a) w =
    (Returned tt,
     World (<[status := OStatus (record net d (name, a))]> (heap w))
           (trace w ++ probe_events net (name, a))).
Proof.
  intros Hans Hst. rewrite (probe_run net status name a d w Hst).
  unfold record, probe_events. cbn [fst snd].
  destruct (net a 1) as [[e|]|e]; [|reflexivity|].
  - simpl in Hans. rewrite except_clause_is_OSError, Hans, dict_set_set.
    reflexivity.
  - simpl in Hans. rewrite except_clause_is_OSError, Hans. reflexivity.
Qed.

(** One statement: the invariant is kept, one statement less remains,
    objects the call does not hold are left alone, no object goes
    away, and what the call newly holds did not exist before. *)
Lemma step_spec (c : call_state) (w : world) :
  call_inv net c (heap w) ->
  call_inv net (fst (step net c w)) (heap (snd (step net c w))) /\
  remaining (fst (step net c w)) = pred (remaining c) /\
  (forall l, is_Some (heap w !! l) -> ~ List.In l (owned c) ->
     heap (snd (step net c w)) !! l = heap w !! l) /\
  (forall l, is_Some (heap w !! l) -> is_Some (heap (snd (step net c w)) !! l)) /\
  (forall l, List.In l (owned (fst (step net c w))) ->
     List.In l (owned c) \/ heap w !! l = None).
Proof.
  destruct c as [|sl|sl st|st [|[name a] rest]|[st|e]]; intros Hinv.
  - (* servers = {...} *)
    change (step net AtEntry w)
      with (AtStatus (servers_loc w),
            World (<[servers_loc w := OServers servers]> (heap w)) (trace w)).
    cbn [fst snd heap call_inv remaining owned].
    assert (Hother : forall l, is_Some (heap w !! l) -> l <> servers_loc w).
    { intros l [o Hl] ->. rewrite servers_loc_fresh in Hl. discriminate. }
    split; [apply lookup_insert_eq|]. split; [reflexivity|].
    split; [intros l Hl _; apply lookup_insert_ne, not_eq_sym, Hother, Hl|].
    split.
    + intros l Hl. rewrite lookup_insert_ne by apply not_eq_sym, Hother, Hl.
      exact Hl.
    + intros l [<-|[]]. right. apply servers_loc_fresh.
  - (* status = {} *)
    simpl in Hinv. unfold step, alloc. cbn [fst snd heap call_inv remaining owned].
    set (st := fresh (dom (heap w))).
    assert (Hfresh : heap w !! st = None)
      by (apply not_elem_of_dom; unfold st; apply is_fresh).
    assert (Hother : forall l, is_Some (heap w !! l) -> l <> st).
    { intros l [o Hl] ->. rewrite Hfresh in Hl. discriminate. }
    assert (Hne : sl <> st) by (apply Hother; eauto).
    split.
    { split; [exact Hne|]. split; [|apply lookup_insert_eq].
      rewrite lookup_insert_ne by apply not_eq_sym, Hne. exact Hinv. }
    split; [reflexivity|].
    split; [intros l Hl _; apply lookup_insert_ne, not_eq_sym, Hother, Hl|].
    split.
    + intros l Hl. rewrite lookup_insert_ne by apply not_eq_sym, Hother, Hl.
      exact Hl.
    + intros l [<-|[<-|[]]]; [left; simpl; tauto | right; exact Hfresh].
  - (* for ... in servers.items() *)
    destruct Hinv as (Hne & Hsl & Hst). unfold step, items. rewrite Hsl.
    cbn [fst snd heap call_inv remaining owned].
    split; [exists []; split; [reflexivity | exact Hst]|].
    split; [reflexivity|]. split; [reflexivity|]. split; [tauto|].
    intros l [<-|[]]. left. simpl. tauto.
  - (* the loop is over: return status *)
    destruct Hinv as (probed & Hsplit & Hst).
    cbn [step fst snd heap call_inv remaining owned].
    rewrite app_nil_r in Hsplit. subst probed.
    split; [exact Hst|]. split; [reflexivity|]. split; [reflexivity|].
    split; [tauto|]. tauto.
  - (* one iteration *)
    destruct Hinv as (probed & Hsplit & Hst).
    assert (Hans : up_or_down (net a 1)).
    { unfold transport_only, answers in net_transport.
      rewrite Hsplit in net_transport.
      apply Forall_app in net_transport as [_ Hrest].
      apply Forall_cons_iff in Hrest as [Hhd _]. exact Hhd. }
    cbn [step]. rewrite (probe_run_answer name a _ w st Hans Hst).
    replace (record net (fold_left (record net) probed []) (name, a))
      with (fold_left (record net) (probed ++ [(name, a)]) [])
      by (rewrite fold_left_app; reflexivity).
    cbn [fst snd heap call_inv remaining owned].
    split.
    { exists (probed ++ [(name, a)]). rewrite <- app_assoc.
      split; [exact Hsplit | apply lookup_insert_eq]. }
    split; [reflexivity|].
    split.
    { intros l _ Hl. apply lookup_insert_ne. intros <-. apply Hl. simpl. tauto. }
    split.
    { intros l Hl. destruct (decide (st = l)) as [<-|Hne].
      - rewrite lookup_insert_eq. eauto.
      - rewrite lookup_insert_ne by exact Hne. exact Hl. }
    tauto.
  - (* finished *)
    cbn [step fst snd]. split; [exact Hinv|]. split; [reflexivity|].
    split; [reflexivity|]. split; tauto.
  - destruct Hinv.
Qed.

End Statements.

Lemma pair_inv_sym (net1 net2 : network) (h0 : gmap loc obj)
    (c1 c2 : call_state) (h : gmap loc obj) :
  pair_inv net1 net2 h0 c1 c2 h -> pair_inv net2 net1 h0 c2 c1 h.
Proof.
  intros (H1 & H2 & Hdisj & Hold). repeat split; try assumption.
  - intros l Hl2 Hl1. exact (Hdisj l Hl1 Hl2).
  - apply (Hold l o H).
  - apply (Hold l o H).
  - apply (Hold l o H).
Qed.

(** A statement of the first call keeps the invariant of the pair. *)
Lemma pair_inv_step (net1 net2 : network) (h0 : gmap loc obj)
    (c1 c2 : call_state) (w : world) :
  transport_only net1 ->
  pair_inv net1 net2 h0 c1 c2 (heap w) ->
  pair_inv net1 net2 h0 (fst (step net1 c1 w)) c2 (heap (snd (step net1 c1 w))).
Proof.
  intros Hnet (H1 & H2 & Hdisj & Hold).
  destruct (step_spec net1 Hnet c1 w H1) as (H1' & _ & Hframe & Hkeep & Hnew).
  assert (Hown2 : forall l, List.In l (owned c2) -> is_Some (heap w !! l))
    by (intros l; apply (call_inv_owned net2 c2 (heap w) l H2)).
  split; [exact H1'|]. split; [|split].
  - apply (call_inv_frame net2 c2 (heap w)); [|exact H2].
    intros l Hl. apply Hframe; [apply Hown2, Hl|].
    intros Hl1. exact (Hdisj l Hl1 Hl).
  - intros l Hl1' Hl2. destruct (Hnew l Hl1') as [Hl1|Hnone].
    + exact (Hdisj l Hl1 Hl2).
    + destruct (Hown2 l Hl2) as [o Ho]. rewrite Hnone in Ho. discriminate.
  - intros l o Hl. destruct (Hold l o Hl) as (Hh & Hn1 & Hn2).
    split; [|split; [|exact Hn2]].
    + rewrite Hframe; [exact Hh | eauto | exact Hn1].
    + intros Hl1'. destruct (Hnew l Hl1') as [Hl1|Hnone]; [exact (Hn1 Hl1)|].
      rewrite Hnone in Hh. discriminate.
Qed.

Lemma turns_cons (b b' : bool) (sched : list bool) :
  turns b (b' :: sched) =
    ((if Bool.eqb b' b then 1 else 0) + turns b sched)%nat.
Proof. unfold turns. simpl. destruct (Bool.eqb b' b); reflexivity. Qed.

(** Any schedule keeps the invariant of the pair, and each call has as
    many statements less to run as it was given turns. *)
Lemma interleave_inv (net1 net2 : network) (h0 : gmap loc obj) :
  transport_only net1 ->
  transport_only net2 ->
  forall (sched : list bool) (c1 c2 : call_state) (w : world),
    pair_inv net1 net2 h0 c1 c2 (heap w) ->
    let r := interleave net1 net2 sched c1 c2 w in
    pair_inv net1 net2 h0 (fst (fst r)) (snd (fst r)) (heap (snd r)) /\
    remaining (fst (fst r)) = (remaining c1 - turns true sched)%nat /\
    remaining (snd (fst r)) = (remaining c2 - turns false sched)%nat.
Proof.
  intros Hnet1 Hnet2.
  induction sched as [|[|] sched IH]; intros c1 c2 w Hinv; cbv zeta.
  - cbn [interleave fst snd]. unfold turns; simpl.
    split; [exact Hinv|]. split; lia.
  - cbn [interleave].
    pose proof (pair_inv_step net1 net2 h0 c1 c2 w Hnet1 Hinv) as Hinv'.
    destruct (step_spec net1 Hnet1 c1 w (proj1 Hinv)) as (_ & Hrem & _).
    destruct (step net1 c1 w) as [c1' w']. cbn [fst snd] in *.
    destruct (IH c1' c2 w' Hinv') as (Hp & Hr1 & Hr2).
    split; [exact Hp|].
    rewrite !turns_cons, Hr1, Hr2, Hrem. cbn [Bool.eqb]. split; lia.
  - cbn [interleave].
    pose proof (pair_inv_sym _ _ _ _ _ _
                  (pair_inv_step net2 net1 h0 c2 c1 w Hnet2
                     (pair_inv_sym _ _ _ _ _ _ Hinv))) as Hinv'.
    destruct (step_spec net2 Hnet2 c2 w (proj1 (proj2 Hinv))) as (_ & Hrem & _).
    destruct (step net2 c2 w) as [c2' w']. cbn [fst snd] in *.
    destruct (IH c1 c2' w' Hinv') as (Hp & Hr1 & Hr2).
    split; [exact Hp|].
    rewrite !turns_cons, Hr1, Hr2, Hrem. cbn [Bool.eqb]. split; lia.
Qed.

(** Two calls, interleaved in any way that lets both run to the end:
    both return, each its own dictionary, holding the report of its own
    network, and the objects that existed before are as they were. *)
Lemma interleaved_calls (net1 net2 : network) (sched : list bool) (w : world) :
  transport_only net1 ->
  transport_only net2 ->
  (7 <= turns true sched)%nat ->
  (7 <= turns false sched)%nat ->
  exists (l1 l2 : loc) (w' : world),
    interleave net1 net2 sched AtEntry AtEntry w =
      (Finished (Returned l1), Finished (Returned l2), w') /\
    l1 <> l2 /\
    heap w' !! l1 = Some (OStatus (report net1)) /\
    heap w' !! l2 = Some (OStatus (report net2)) /\
    forall l o, heap w !! l = Some o -> heap w' !! l = Some o.
Proof.
  intros Hnet1 Hnet2 Ht1 Ht2.
  assert (Hinit : pair_inv net1 net2 (heap w) AtEntry AtEntry (heap w)).
  { repeat split; simpl; try tauto. }
  destruct (interleave_inv net1 net2 (heap w) Hnet1 Hnet2 sched
              AtEntry AtEntry w Hinit) as ((H1 & H2 & Hdisj & Hold) & Hr1 & Hr2).
  destruct (interleave net1 net2 sched AtEntry AtEntry w) as [[c1 c2] w'].
  cbn [fst snd] in *. simpl in Hr1, Hr2.
  destruct c1 as [| | | |[l1|e1]]; simpl in Hr1; try lia; [|destruct H1].
  destruct c2 as [| | | |[l2|e2]]; simpl in Hr2; try lia; [|destruct H2].
  exists l1, l2, w'. split; [reflexivity|]. split.
  - intros <-. apply (Hdisj l1); simpl; tauto.
  - split; [exact H1|]. split; [exact H2|].
    intros l o Hl. apply (Hold l o Hl).
Qed.

(** C8.  A call leaves the state of the program alone.  Every object
    that exists before the call is the same after it; the dictionary it
    returns did not exist before; its report and its socket events are
    the same from whatever world it starts.  So calls are independent:
    a second call reports what it would have reported without the first,
    returns another dictionary and leaves the first report as it was;
    and two calls run statement by statement in any interleaving that
    lets both finish return two different dictionaries, each holding the
    report the call gives when run alone, with every earlier object
    untouched.  (Seven statements of the statement-by-statement run are
    the call itself.) *)
Theorem call_leaves_program_state_alone
    (net1 net2 : network) (w : world) (sched : list bool) :
  let r1 := check_server_status net1 w in
  let r2 := check_server_status net2 (snd r1) in
  (forall l o, heap w !! l = Some o -> heap (snd r1) !! l = Some o) /\
  (forall l, fst r1 = Returned l -> heap w !! l = None) /\
  (forall w0 : world,
      report_of (check_server_status net1 w0) = report_of r1 /\
      events_since (trace w0) (check_server_status net1 w0) =
        events_since (trace w) r1) /\
  (report_of r2 = report_of (check_server_status net2 w) /\
   forall l1, fst r1 = Returned l1 ->
     heap (snd r2) !! l1 = heap (snd r1) !! l1 /\ fst r2 <> Returned l1) /\
  steps net1 7 AtEntry w = (Finished (fst r1), snd r1) /\
  (transport_only net1 -> transport_only net2 ->
   (7 <= turns true sched)%nat -> (7 <= turns false sched)%nat ->
   exists (l1 l2 : loc) (w' : world),
     interleave net1 net2 sched AtEntry AtEntry w =
       (Finished (Returned l1), Finished (Returned l2), w') /\
     l1 <> l2 /\
     report_of (Returned l1, w') = report_of r1 /\
     report_of (Returned l2, w') = report_of (check_server_status net2 w) /\
     forall l o, heap w !! l = Some o -> heap w' !! l = Some o).
Proof.
  cbv zeta. split; [|split; [|split; [|split; [|split]]]].
  - intros l o. apply run_frame.
  - intros l. apply run_fresh.
  - intros w0. rewrite !run_report, !run_events. split; reflexivity.
  - split; [rewrite !run_report; reflexivity|].
    intros l1 Hret.
    assert (Hl1 : is_Some (heap (snd (check_server_status net1 w)) !! l1)).
    { rewrite run_result in Hret. rewrite run_heap.
      destruct (probe_all net1 servers []) as [[d evs] [e|]]; [discriminate|].
      injection Hret as <-. unfold heap_after. rewrite lookup_insert_eq. eauto. }
    destruct Hl1 as [o Ho]. split.
    + rewrite Ho. apply run_frame, Ho.
    + intros Hret2. apply run_fresh in Hret2. rewrite Hret2 in Ho. discriminate.
  - apply steps_sequential.
  - intros Hnet1 Hnet2 Ht1 Ht2.
    destruct (interleaved_calls net1 net2 sched w Hnet1 Hnet2 Ht1 Ht2)
      as (l1 & l2 & w' & Hrun & Hne & Hl1 & Hl2 & Hold).
    exists l1, l2, w'. split; [exact Hrun|]. split; [exact Hne|].
    rewrite !transport_report by assumption.
    unfold report_of. rewrite Hl1, Hl2. repeat split. exact Hold.
Qed.

Lemma call_leaves_program_state_alone_witness :
  let sched := [true; false; false; true; true; false; true; false;
                false; false; true; true; false; true] in
  transport_only net_mixed /\
  transport_only net_only_backend /\
  (7 <= turns true sched)%nat /\
  (7 <= turns false sched)%nat /\
  (forall l1, fst (check_server_status net_mixed world1) = Returned l1 ->
     heap (snd (check_server_status net_only_backend
                  (snd (check_server_status net_mixed world1)))) !! l1 =
       heap (snd (check_server_status net_mixed world1)) !! l1 /\
     fst (check_server_status net_only_backend
            (snd (check_server_status net_mixed world1))) <> Returned l1) /\
  exists (l1 l2 : loc) (w' : world),
    interleave net_mixed net_only_backend sched AtEntry AtEntry world1 =
      (Finished (Returned l1), Finished (Returned l2), w') /\
    l1 <> l2 /\
    report_of (Returned l1, w') = report_of (check_server_status net_mixed world1) /\
    report_of (Returned l2, w') =
      report_of (check_server_status net_only_backend world1) /\
    forall l o, heap world1 !! l = Some o -> heap w' !! l = Some o.
Proof.
  cbv zeta.
  assert (H1 : transport_only net_mixed) by (repeat constructor).
  assert (H2 : transport_only net_only_backend) by (repeat constructor).
  split; [exact H1|]. split; [exact H2|].
  split; [vm_compute; lia|]. split; [vm_compute; lia|].
  pose proof (call_leaves_program_state_alone net_mixed net_only_backend world1
                [true; false; false; true; true; false; true; false;
                 false; false; true; true; false; true]) as H.
  cbv zeta in H. destruct H as (_ & _ & _ & (_ & Hsucc) & _ & Hconc).
  split; [exact Hsucc|].
  apply Hconc; [exact H1 | exact H2 | vm_compute; lia | vm_compute; lia].
Defined.

(* ================================================================== *)
(** ** The scenarios of the specification, run *)
(* ================================================================== *)

(** Only the backend listens. *)
Example scenario_only_backend :
  report_of (check_server_status net_only_backend world0) =
    Some [("frontend", "DOWN"); ("backend", "UP"); ("redis", "DOWN")].
Proof. vm_compute. reflexivity. Qed.

(** Nothing listens. *)
Example scenario_all_down :
  report_of (check_server_status net_all_down world1) =
    Some [("frontend", "DOWN"); ("backend", "DOWN"); ("redis", "DOWN")].
Proof. vm_compute. reflexivity. Qed.

(** A timeout, a connection and a resolver error, with their events. *)
Example scenario_mixed :
  report_of (check_server_status net_mixed world0) =
    Some [("frontend", "DOWN"); ("backend", "UP"); ("redis", "DOWN")] /\
  events_since (trace world0) (check_server_status net_mixed world0) =
    [EvConnect ("localhost", 3002) 1;
     EvFailed ("localhost", 3002) Exn.socket_timeout;
     EvConnect ("localhost", 3001) 1;
     EvConnected ("localhost", 3001);
     EvClose ("localhost", 3001);
     EvConnect ("localhost", 6379) 1;
     EvFailed ("localhost", 6379) Exn.gaierror].
Proof. split; vm_compute; reflexivity. Qed.

(** A connection whose close fails with an [OSError] reads "DOWN". *)
Example scenario_close_fails :
  report_of (check_server_status net_close_fails world0) =
    Some [("frontend", "DOWN"); ("backend", "UP"); ("redis", "UP")] /\
  events_since (trace world0) (check_server_status net_close_fails world0) =
    [EvConnect ("localhost", 3002) 1;
     EvConnected ("localhost", 3002);
     EvClose ("localhost", 3002);
     EvConnect ("localhost", 3001) 1;
     EvConnected ("localhost", 3001);
     EvClose ("localhost", 3001);
     EvConnect ("localhost", 6379) 1;
     EvConnected ("localhost", 6379);
     EvClose ("localhost", 6379)].
Proof. split; vm_compute; reflexivity. Qed.

(** An exception that is no [OSError] is not caught: the interrupt
    leaves the call after the second attempt, and redis is not probed. *)
Example scenario_interrupted :
  fst (check_server_status net_interrupted world0) = Raised Exn.KeyboardInterrupt /\
  attempts (events_since (trace world0)
              (check_server_status net_interrupted world0)) =
    [(("localhost", 3002), 1); (("localhost", 3001), 1)].
Proof. split; vm_compute; reflexivity. Qed.

(* ================================================================== *)
(** ** More on the loop: any entries, any exception *)
(* ================================================================== *)

Lemma dict_set_fresh {V} (d : dict V) (k : string) (v : V) :
  ~ List.In k (dict_keys d) -> dict_set d k v = d ++ [(k, v)].
Proof.
  induction d as [|[k' v'] d IH]; simpl; [reflexivity|].
  intros Hnin. destruct (String.eqb k' k) eqn:E.
  - apply String.eqb_eq in E. tauto.
  - f_equal. apply IH. tauto.
Qed.

(** With names that are new and distinct, the fold appends one entry per
    name: the name with the verdict of its address. *)
Lemma record_all_map (net : network) (entries : list (string * address)) :
  forall d : dict string,
    List.NoDup (dict_keys d ++ dict_keys entries) ->
    fold_left (record net) entries d =
      d ++ map (fun entry : string * address =>
                  (fst entry, verdict (net (snd entry) 1))) entries.
Proof.
  induction entries as [|[name a] rest IH]; intros d Hnd; simpl.
  - now rewrite app_nil_r.
  - assert (Hnew : ~ List.In name (dict_keys d)).
    { intros Hin. apply NoDup_remove_2 in Hnd. apply Hnd.
      apply in_or_app. now left. }
    unfold record at 2; cbn [fst snd].
    rewrite (dict_set_fresh d name _ Hnew), IH.
    + now rewrite <- app_assoc.
    + unfold dict_keys in *. rewrite map_app, <- app_assoc. exact Hnd.
Qed.

(** A loop that no exception leaves has probed every entry. *)
Lemma probe_all_returned (net : network) (entries : list (string * address)) :
  forall (d d' : dict string) (evs : list event),
    probe_all net entries d = (d', evs, None) ->
    d' = fold_left (record net) entries d /\
    evs = flat_map (probe_events net) entries.
Proof.
  induction entries as [|[name a] rest IH]; intros d d' evs.
  - intros [= <- <-]. split; reflexivity.
  - cbn [probe_all fold_left flat_map]. unfold record at 2, probe_events at 1.
    cbn [fst snd]. destruct (net a 1) as [[e|]|e]; cbn [verdict].
    + destruct (Exn.matches except_clause e); [|discriminate].
      rewrite dict_set_set.
      destruct (probe_all net rest (dict_set d name "DOWN")) as [[d1 evs1] exn1] eqn:E.
      intros [= <- <- ->]. destruct (IH _ _ _ E) as [-> ->]. split; reflexivity.
    + destruct (probe_all net rest (dict_set d name "UP")) as [[d1 evs1] exn1] eqn:E.
      intros [= <- <- ->]. destruct (IH _ _ _ E) as [-> ->]. split; reflexivity.
    + destruct (Exn.matches except_clause e); [|discriminate].
      destruct (probe_all net rest (dict_set d name "DOWN")) as [[d1 evs1] exn1] eqn:E.
      intros [= <- <- ->]. destruct (IH _ _ _ E) as [-> ->]. split; reflexivity.
Qed.

(** The loop up to the first exception the clause does not catch. *)
Lemma probe_all_uncaught (net : network)
    (before after : list (string * address)) (name : string) (a : address)
    (e : Exn.class) :
  answers net before ->
  net a 1 = Raises e ->
  transport_level e = false ->
  forall d : dict string,
    probe_all net (before ++ (name, a) :: after) d =
      (fold_left (record net) before d,
       flat_map (probe_events net) before ++ [EvConnect a 1; EvFailed a e],
       Some e).
Proof.
  intros Hbefore Hnet He.
  induction Hbefore as [|[name' a'] rest Hhd Htl IH]; intros d.
  - cbn [app probe_all fold_left flat_map].
    rewrite Hnet, except_clause_is_OSError, He. reflexivity.
  - cbn [app probe_all fold_left flat_map]. unfold record at 2, probe_events at 1.
    cbn [fst snd] in *. destruct (net a' 1) as [[e'|]|e']; cbn [verdict].
    + simpl in Hhd. rewrite except_clause_is_OSError, Hhd, dict_set_set, IH.
      reflexivity.
    + rewrite IH. reflexivity.
    + simpl in Hhd. rewrite except_clause_is_OSError, Hhd, IH. reflexivity.
Qed.


(** X1.  The loop, over any entries with distinct names and a status
    dictionary that starts empty: when every attempt connects or fails
    at transport level, and so does every close, the loop ends normally,
    the status dictionary holds the entries in their order, with "UP"
    for a connection that is made and closed without error and "DOWN"
    for one whose attempt or close failed, no other object is touched,
    and one attempt is made per entry, in order, with the timeout 1. *)
Theorem loop_report_is_map
    (net : network) (entries : list (string * address)) (status : loc)
    (w : world) :
  List.NoDup (dict_keys entries) ->
  answers net entries ->
  heap w !! status = Some (OStatus []) ->
  let r := for_each entries (probe net status) w in
  fst r = Returned tt /\
  heap (snd r) !! status =
    Some (OStatus (map (fun entry : string * address =>
                          (fst entry,
                           if net (snd entry) 1 is Connected None
                           then "UP" else "DOWN"))
                       entries)) /\
  (forall l, l <> status -> heap (snd r) !! l = heap w !! l) /\
  attempts (drop (length (trace w)) (trace (snd r))) =
    map (fun entry : string * address => (snd entry, 1)) entries.
Proof.
  intros Hnd Hans Hst. cbv zeta.
  rewrite (for_each_probe net status entries [] w Hst).
  rewrite (probe_all_transport net entries Hans []).
  cbn [fst snd outcome_result heap trace].
  split; [reflexivity|]. split; [|split].
  - rewrite lookup_insert_eq, (record_all_map net entries []) by exact Hnd.
    reflexivity.
  - intros l Hl. apply lookup_insert_ne. congruence.
  - rewrite drop_app_length. apply probe_events_attempts.
Qed.

Lemma loop_report_is_map_witness :
  let entries := [("db", ("localhost", 5432)); ("web", ("localhost", 3002))] in
  let w := World (<[3%positive := OStatus []]> ∅) [] in
  let r := for_each entries (probe net_close_fails 3%positive) w in
  fst r = Returned tt /\
  heap (snd r) !! 3%positive =
    Some (OStatus (map (fun entry : string * address =>
                          (fst entry,
                           if net_close_fails (snd entry) 1 is Connected None
                           then "UP" else "DOWN"))
                       entries)) /\
  (forall l, l <> 3%positive -> heap (snd r) !! l = heap w !! l) /\
  attempts (drop (length (trace w)) (trace (snd r))) =
    map (fun entry : string * address => (snd entry, 1)) entries.
Proof.
  cbv zeta.
  apply (loop_report_is_map net_close_fails
           [("db", ("localhost", 5432)); ("web", ("localhost", 3002))]
           3%positive (World (<[3%positive := OStatus []]> ∅) [])).
  - simpl. repeat (constructor; [simpl; intuition discriminate|]). constructor.
  - repeat constructor.
  - reflexivity.
Defined.

(** X2.  An exception that is no [OSError] is not turned into "DOWN":
    when the connection attempt to a target raises one, every earlier
    probe having connected or failed at transport level, the call
    raises that very exception and returns no report; the attempts made
    are those up to and including the raising one, the targets after it
    are never tried, and the status dictionary left behind holds the
    earlier targets only, each with the status of its own probe ("UP"
    for a connection made and closed without error, "DOWN" otherwise). *)
Theorem uncaught_exception_leaves_call
    (net : network) (w : world)
    (before after : list (string * address)) (name : string) (a : address)
    (e : Exn.class) :
  servers = before ++ (name, a) :: after ->
  answers net before ->
  net a 1 = Raises e ->
  transport_level e = false ->
  let r := check_server_status net w in
  fst r = Raised e /\
  report_of r = None /\
  attempts (events_since (trace w) r) =
    map (fun entry : string * address => (snd entry, 1)) (before ++ [(name, a)]) /\
  heap (snd r) !! status_loc w =
    Some (OStatus (map (fun entry : string * address =>
                          (fst entry, verdict (net (snd entry) 1))) before)).
Proof.
  intros Hsplit Hbefore Hnet He. cbv zeta.
  assert (Hnd : List.NoDup (dict_keys before)).
  { pose proof servers_keys_NoDup as H. rewrite Hsplit in H.
    unfold dict_keys in *. rewrite map_app in H.
    apply NoDup_app_remove_r in H. exact H. }
  rewrite run_events, check_server_status_run, Hsplit.
  rewrite (probe_all_uncaught net before after name a e Hbefore Hnet He []).
  cbn [fst snd heap]. split; [reflexivity|]. split; [reflexivity|]. split.
  - unfold attempts. rewrite flat_map_app. fold (attempts (flat_map (probe_events net) before)).
    rewrite probe_events_attempts, map_app. reflexivity.
  - unfold heap_after. rewrite lookup_insert_eq.
    rewrite (record_all_map net before []) by exact Hnd. reflexivity.
Qed.

Lemma uncaught_exception_leaves_call_witness :
  let r := check_server_status net_interrupted world1 in
  fst r = Raised Exn.KeyboardInterrupt /\
  report_of r = None /\
  attempts (events_since (trace world1) r) =
    [(("localhost", 3002), 1); (("localhost", 3001), 1)] /\
  heap (snd r) !! status_loc world1 = Some (OStatus [("frontend", "UP")]).
Proof.
  cbv zeta.
  apply (uncaught_exception_leaves_call net_interrupted world1
           [("frontend", ("localhost", 3002))] [("redis", ("localhost", 6379))]
           "backend" ("localhost", 3001) Exn.KeyboardInterrupt).
  - reflexivity.
  - repeat constructor.
  - reflexivity.
  - reflexivity.
Defined.

(* ================================================================== *)
(** ** Sockets: opened, closed, never two at once *)
(* ================================================================== *)






(** X4.  The clause [except (socket.timeout, ConnectionRefusedError,
    OSError)] catches exactly the subclasses of [OSError]: its first
    two classes add nothing, so a [try] under it behaves as under
    [except OSError] alone, and an exception is caught if and only if
    [OSError] is among its bases. *)
Theorem except_clause_catches_OSError_only :
  (forall e : Exn.class,
      Exn.matches except_clause e = true <-> List.In Exn.OSError (Exn.mro e)) /\
  (forall (A : Type) (body handler : M A) (w : world),
      try_except body except_clause handler w =
        try_except body [Exn.OSError] handler w) /\
  (forall e : Exn.class,
      List.In e [Exn.BaseException; Exn.KeyboardInterrupt; Exn.Exception;
                 Exn.MemoryError; Exn.TypeError; Exn.ArithmeticError;
                 Exn.OverflowError] ->
      Exn.matches except_clause e = false).
Proof.
  split; [|split].
  - intros e. destruct e; vm_compute; split; intros H;
      solve [reflexivity | discriminate | intuition discriminate | tauto].
  - intros A body handler w. unfold try_except.
    destruct (body w) as [[a|e] w']; [reflexivity|].
    replace (Exn.matches [Exn.OSError] e) with (Exn.matches except_clause e)
      by (destruct e; reflexivity).
    reflexivity.
  - intros e He. simpl in He.
    repeat (destruct He as [<-|He]; [reflexivity|]). destruct He.
Qed.

Lemma except_clause_catches_OSError_only_witness :
  (Exn.matches except_clause Exn.ConnectionRefusedError = true <->
   List.In Exn.OSError (Exn.mro Exn.ConnectionRefusedError)) /\
  Exn.matches except_clause Exn.KeyboardInterrupt = false.
Proof.
  destruct except_clause_catches_OSError_only as (Hiff & _ & Hnot).
  split; [apply Hiff | apply Hnot; simpl; tauto].
Defined.

(* ================================================================== *)
(** ** Status and probe *)
(* ================================================================== *)

(** X6.  A target reads "UP" exactly when its connection was made and
    then closed without error, and "DOWN" exactly when the attempt
    raised or the close of the connection raised; it always reads one
    of the two. *)
Theorem status_UP_iff_connected
    (net : network) (w : world) (name : string) (a : address) :
  transport_only net ->
  List.In (name, a) servers ->
  exists d : dict string,
    report_of (check_server_status net w) = Some d /\
    (dict_get d name = Some "UP" <-> net a 1 = Connected None) /\
    (dict_get d name = Some "DOWN" <->
     exists e, net a 1 = Raises e \/ net a 1 = Connected (Some e)) /\
    (dict_get d name = Some "UP" \/ dict_get d name = Some "DOWN").
Proof.
  intros Hnet Hin. exists (report net).
  split; [apply transport_report, Hnet|].
  rewrite (report_get net name a Hin).
  destruct (net a 1) as [[e|]|e]; cbn [verdict].
  - split; [split; discriminate|]. split; [|right; reflexivity].
    split; [eauto | reflexivity].
  - split; [tauto|]. split; [|left; reflexivity].
    split; [discriminate | intros [e [He|He]]; discriminate].
  - split; [split; discriminate|]. split; [|right; reflexivity].
    split; [eauto | reflexivity].
Qed.

Lemma status_UP_iff_connected_witness :
  transport_only net_close_fails /\
  List.In ("frontend", ("localhost", 3002)) servers /\
  net_close_fails ("localhost", 3002) 1 = Connected (Some Exn.OSError) /\
  exists d : dict string,
    report_of (check_server_status net_close_fails world1) = Some d /\
    (dict_get d "frontend" = Some "UP" <->
     net_close_fails ("localhost", 3002) 1 = Connected None) /\
    (dict_get d "frontend" = Some "DOWN" <->
     exists e, net_close_fails ("localhost", 3002) 1 = Raises e \/
               net_close_fails ("localhost", 3002) 1 = Connected (Some e)) /\
    (dict_get d "frontend" = Some "UP" \/ dict_get d "frontend" = Some "DOWN").
Proof.
  assert (H : transport_only net_close_fails) by (repeat constructor).
  assert (Hin : List.In ("frontend", ("localhost", 3002)) servers)
    by (simpl; tauto).
  split; [exact H|]. split; [exact Hin|]. split; [reflexivity|].
  exact (status_UP_iff_connected net_close_fails world1
           "frontend" ("localhost", 3002) H Hin).
Defined.



(* ================================================================== *)
(** ** test_status *)
(* ================================================================== *)

(** One run of [test_status], in terms of the loop. *)
Lemma test_status_run (net : network) (c : console) :
  test_status net c =
    let '(d, evs, exn) := probe_all net servers [] in
    let w' := World (heap_after (machine c) d) (trace (machine c) ++ evs) in
    match exn with
    | None =>
        (Returned tt,
         Console w'
           (stdout c ++
              [banner_line; json_dumps_status d;
               if existsb (String.eqb "frontend") (dict_keys d)
               then valid_line else invalid_line]))
    | Some e => (Raised e, Console w' (stdout c ++ [banner_line]))
    end.
Proof.
  unfold test_status, io_bind at 1, print at 1. unfold io_bind at 1, lift.
  cbn [machine stdout]. rewrite check_server_status_run.
  destruct (probe_all net servers []) as [[d evs] [e|]]; [reflexivity|].
  unfold io_bind, dumps, is_dict_with, print. cbn [machine stdout heap].
  unfold heap_after.
  repeat (rewrite lookup_insert_eq; cbn [machine stdout heap]).
  destruct (existsb (String.eqb "frontend") (dict_keys d));
    cbn [machine stdout]; rewrite <- !app_assoc; reflexivity.
Qed.

Lemma json_dumps_status_brace (d : dict string) :
  exists s : string, json_dumps_status d = String "{" s.
Proof.
  unfold json_dumps_status, json_object.
  destruct (map _ d); simpl; eauto.
Qed.

Lemma verdict_cases (o : outcome) : verdict o = "UP" \/ verdict o = "DOWN".
Proof. destruct o as [[e|]|e]; simpl; auto. Qed.

(** The reports of two networks that print alike are alike. *)
Lemma report_text_inj (net1 net2 : network) :
  json_dumps_status (report net1) = json_dumps_status (report net2) ->
  report net1 = report net2.
Proof.
  unfold report. rewrite !record_all_map by (simpl; apply servers_keys_NoDup).
  cbn [app map servers fst snd].
  destruct (verdict_cases (net1 ("localhost", 3002) 1)) as [-> | ->],
    (verdict_cases (net1 ("localhost", 3001) 1)) as [-> | ->],
    (verdict_cases (net1 ("localhost", 6379) 1)) as [-> | ->],
    (verdict_cases (net2 ("localhost", 3002) 1)) as [-> | ->],
    (verdict_cases (net2 ("localhost", 3001) 1)) as [-> | ->],
    (verdict_cases (net2 ("localhost", 6379) 1)) as [-> | ->];
    intros H; try reflexivity;
    apply (proj2 (String.eqb_eq _ _)) in H; vm_compute in H; discriminate H.
Qed.

(** A run of [test_status] on a network that connects or fails at
    transport level. *)
Lemma test_status_transport_run (net : network) (c : console) :
  transport_only net ->
  test_status net c =
    (Returned tt,
     Console (snd (check_server_status net (machine c)))
             (stdout c ++ [banner_line; json_dumps_status (report net); valid_line])).
Proof.
  intros Hnet.
  rewrite test_status_run, (transport_run net (machine c) Hnet).
  rewrite (probe_all_transport net servers Hnet []).
  fold (report net). rewrite report_keys. reflexivity.
Qed.

(** X7.  On a network that connects or fails at transport level,
    [test_status] returns after printing three things: the banner, the
    JSON text of the report the call returned, and the line that says
    the tool structure is valid; the heap and the socket events it
    leaves are those of the one call it makes. *)
Theorem test_status_prints_report (net : network) (c : console) :
  transport_only net ->
  let r := test_status net c in
  exists d : dict string,
    report_of (check_server_status net (machine c)) = Some d /\
    fst r = Returned tt /\
    printed_since (stdout c) r = [banner_line; json_dumps_status d; valid_line] /\
    machine (snd r) = snd (check_server_status net (machine c)).
Proof.
  intros Hnet. cbv zeta. exists (report net).
  split; [apply transport_report, Hnet|].
  rewrite (test_status_transport_run net c Hnet).
  unfold printed_since; cbn [fst snd stdout machine]. rewrite drop_app_length.
  repeat split.
Qed.

Lemma test_status_prints_report_witness :
  transport_only net_only_backend /\
  let r := test_status net_only_backend console1 in
  exists d : dict string,
    report_of (check_server_status net_only_backend (machine console1)) = Some d /\
    fst r = Returned tt /\
    printed_since (stdout console1) r =
      [banner_line; json_dumps_status d; valid_line] /\
    machine (snd r) = snd (check_server_status net_only_backend (machine console1)).
Proof.
  assert (H : transport_only net_only_backend) by (repeat constructor).
  split; [exact H | exact (test_status_prints_report net_only_backend console1 H)].
Defined.

(** X8.  [test_status] never prints the line that says the tool output
    is invalid, on any network and from any console: a call that
    returns has returned a dictionary with the key frontend, and a call
    that raises ends the test before the check. *)
Theorem test_status_never_prints_invalid (net : network) (c : console) :
  ~ List.In invalid_line (printed_since (stdout c) (test_status net c)).
Proof.
  rewrite test_status_run.
  destruct (probe_all net servers []) as [[d evs] [e|]] eqn:E;
    unfold printed_since; cbn [snd stdout]; rewrite drop_app_length.
  - intros [H|[]]. discriminate H.
  - destruct (probe_all_returned net servers [] d evs E) as [-> _].
    fold (report net). rewrite report_keys.
    cbn [existsb dict_keys map servers fst String.eqb Ascii.eqb Bool.eqb orb].
    destruct (json_dumps_status_brace (report net)) as [s Hs].
    intros [H|[H|[H|[]]]]; [discriminate H | | discriminate H].
    rewrite Hs in H. discriminate H.
Qed.

(** X9.  An exception that leaves [check_server_status] leaves
    [test_status] too: the test raises it, having printed the banner
    and nothing else, neither the JSON text nor a verdict. *)
Theorem test_status_propagates (net : network) (c : console) (e : Exn.class) :
  fst (check_server_status net (machine c)) = Raised e ->
  let r := test_status net c in
  fst r = Raised e /\
  printed_since (stdout c) r = [banner_line] /\
  machine (snd r) = snd (check_server_status net (machine c)).
Proof.
  cbv zeta. rewrite test_status_run, check_server_status_run.
  destruct (probe_all net servers []) as [[d evs] [e'|]]; cbn [fst snd];
    [|discriminate].
  intros [= ->]. unfold printed_since; cbn [snd stdout machine].
  rewrite drop_app_length. repeat split.
Qed.

Lemma test_status_propagates_witness :
  fst (check_server_status net_interrupted (machine console1))
    = Raised Exn.KeyboardInterrupt /\
  let r := test_status net_interrupted console1 in
  fst r = Raised Exn.KeyboardInterrupt /\
  printed_since (stdout console1) r = [banner_line] /\
  machine (snd r) = snd (check_server_status net_interrupted (machine console1)).
Proof.
  assert (H : fst (check_server_status net_interrupted (machine console1))
              = Raised Exn.KeyboardInterrupt) by (vm_compute; reflexivity).
  split; [exact H|].
  exact (test_status_propagates net_interrupted console1 Exn.KeyboardInterrupt H).
Defined.

(** X10.  What [test_status] prints tells the report: two runs, on
    networks that connect or fail at transport level, that print the
    same lines come from calls that returned the same report. *)
Theorem test_status_output_tells_report
    (net1 net2 : network) (c1 c2 : console) :
  transport_only net1 ->
  transport_only net2 ->
  printed_since (stdout c1) (test_status net1 c1) =
    printed_since (stdout c2) (test_status net2 c2) ->
  report_of (check_server_status net1 (machine c1)) =
    report_of (check_server_status net2 (machine c2)).
Proof.
  intros H1 H2.
  rewrite (test_status_transport_run net1 c1 H1).
  rewrite (test_status_transport_run net2 c2 H2).
  unfold printed_since; cbn [snd stdout]. rewrite !drop_app_length.
  intros Hp.
  pose proof (f_equal (fun l : list string => nth 1 l EmptyString) Hp) as Htext.
  cbn [nth] in Htext. rewrite !transport_report by assumption.
  f_equal. apply report_text_inj, Htext.
Qed.

Lemma test_status_output_tells_report_witness :
  transport_only net_mixed /\
  transport_only net_only_backend /\
  printed_since (stdout console1) (test_status net_mixed console1) =
    printed_since (stdout (Console world0 [])) (test_status net_only_backend (Console world0 [])) /\
  report_of (check_server_status net_mixed (machine console1)) =
    report_of (check_server_status net_only_backend (machine (Console world0 []))).
Proof.
  assert (H1 : transport_only net_mixed) by (repeat constructor).
  assert (H2 : transport_only net_only_backend) by (repeat constructor).
  assert (Hp : printed_since (stdout console1) (test_status net_mixed console1) =
               printed_since (stdout (Console world0 []))
                 (test_status net_only_backend (Console world0 [])))
    by (vm_compute; reflexivity).
  split; [exact H1|]. split; [exact H2|]. split; [exact Hp|].
  exact (test_status_output_tells_report net_mixed net_only_backend
           console1 (Console world0 []) H1 H2 Hp).
Defined.

(* ================================================================== *)
(** ** No retries *)
(* ================================================================== *)

(** X11.  No target is tried twice: on any network, whether the call
    returns or raises, its connection attempts are at most three, all
    to different addresses, and each with the timeout 1; a failed
    attempt is not followed by another attempt on the same address. *)
Theorem no_target_is_retried (net : network) (w : world) :
  let made := attempts (events_since (trace w) (check_server_status net w)) in
  List.NoDup made /\
  (length made <= 3)%nat /\
  Forall (fun at_ : address * Z => snd at_ = 1) made.
Proof.
  cbv zeta. rewrite run_events.
  destruct (probe_all_attempts net servers []) as [n ->].
  destruct n as [|[|[|[|n]]]]; cbn [take map servers snd length];
    try rewrite take_nil;
    (split; [repeat (constructor; [simpl; intuition discriminate|]); constructor|]);
    (split; [simpl; lia|]); repeat constructor.
Qed.
